(** * Silkworm downloader: the stage loop of [cmd/downloader.cpp] and the
      task completion of [sentry/sentry.cpp]

    A shallow embedding of the two C++ translation units.  The collaborators
    whose code lives elsewhere (stages, sentry client, block exchange, CLI
    parser, database) are variables of the development: every theorem holds
    for all of their behaviours. *)

From Stdlib Require Import String ZArith List Bool Lia DecimalString.
Import ListNotations.
Open Scope Z_scope.

(** ** Machine integers: [size_t] is a 64-bit unsigned integer *)

Definition size_modulus : Z := 2 ^ 64.
Definition SIZE_MAX : Z := size_modulus - 1.

(** Arithmetic on [size_t] wraps around. *)
Definition wrap (z : Z) : Z := z mod size_modulus.

(** ** [Stage::Result] *)

(** Modelled from the spec: [Stage::Result] is declared in [stage.hpp], which
    is not among the sources; the spec gives
    [{status in {Done, UnwindNeeded, Error, Unspecified}, unwind_point?, bad_block?}]. *)
Inductive Status : Type := Unspecified | Done | UnwindNeeded | Error.

Definition Status_eqb (a b : Status) : bool :=
  match a, b with
  | Unspecified, Unspecified | Done, Done
  | UnwindNeeded, UnwindNeeded | Error, Error => true
  | _, _ => false
  end.

Definition BlockNum : Type := Z.
Definition Hash : Type := list Byte.byte.

Record Result : Type := mkResult {
  status : Status;
  unwind_point : option BlockNum;
  bad_block : option Hash
}.

(** ** Exceptions reaching [main]

    [main] has two handlers: [CLI::ParseError] (whose exit code is what
    [app.exit(ex)] returns) and [std::exception&].  [CLI::ParseError] derives
    from [std::runtime_error], so it is the first handler that picks it.
    Every exception of the collaborators derives from [std::exception]. *)
Inductive Exception : Type :=
| ParseError (exit_code : Z)
| StdException (what : string).

(** The three worker threads of [main]. *)
Inductive Thread : Type := message_receiving | stats_receiving | block_downloading.

Definition Thread_eqb (a b : Thread) : bool :=
  match a, b with
  | message_receiving, message_receiving
  | stats_receiving, stats_receiving
  | block_downloading, block_downloading => true
  | _, _ => false
  end.

(** The static tunables of [BodySequence]. *)
Record Tunables : Type := mkTunables {
  kMaxBlocksPerMessage : Z;
  kPerPeerMaxOutstandingRequests : Z;
  kRequestDeadline : Z;      (* std::chrono::seconds *)
  kNoPeerDelay : Z           (* std::chrono::milliseconds *)
}.

(** Outcome of a computation: a value, a C++ exception in flight, undefined
    behaviour (an array index out of bounds, an empty [optional]
    dereferenced), or a loop that has not finished when the fuel ran out. *)
Inductive Res (A : Type) : Type :=
| Val (a : A)
| Throw (e : Exception)
| Undef
| Diverge.
Arguments Val {A} a.
Arguments Throw {A} e.
Arguments Undef {A}.
Arguments Diverge {A}.

(** ** The settings of [main] *)

Record ChainConfig : Type := mkChainConfig { chain_id : Z }.

Record NodeSettings : Type := mkNodeSettings {
  sentry_api_addr : string;
  chain_config : option ChainConfig
}.

Inductive ChainIdentity : Type :=
  kMainnetIdentity | kRopstenIdentity | kSepoliaIdentity.

(** What the command line gives for the four options that [main] registers
    with [add_option]: [None] when the option is absent. *)
Record CommandLine : Type := mkCommandLine {
  max_blocks_per_req : option Z;
  max_requests_per_peer : option Z;
  request_deadline_s : option Z;
  no_peer_delay_ms : option Z
}.

(** How the process ends. *)
Inductive Exit : Type :=
| ExitCode (code : Z)      (* [main] returns [code] *)
| Terminated               (* [std::terminate] was called *)
| UndefinedBehaviour
| Running.                 (* the stage loop is still going *)

(** ** The task completion of [SentryImpl::start] *)

Section SentryTask.

(** [boost::system::error_code], and its comparison with
    [boost::system::errc::operation_canceled]; both belong to Boost. *)
Variable error_code : Type.
Variable is_operation_canceled : error_code -> bool.

(** What an [exception_ptr] can hold: a [boost::system::system_error] with
    its code, or any other exception. *)
Inductive TaskException : Type :=
| SystemError (code : error_code)
| OtherException (what : string).

(** A null [exception_ptr] is [None]. *)
Definition exception_ptr : Type := option TaskException.

Inductive Completion (A : Type) : Type :=
| Returns (a : A)
| Throws (e : TaskException)
| UndefinedRethrow.         (* std::rethrow_exception on a null pointer *)
Arguments Returns {A} a.
Arguments Throws {A} e.
Arguments UndefinedRethrow {A}.

(** [std::rethrow_exception] never returns. *)
Definition rethrow_exception (ex_ptr : exception_ptr) : Completion unit :=
  match ex_ptr with
  | Some e => Throws e
  | None => UndefinedRethrow
  end.

(** [try { body } catch (const boost::system::system_error& e) { handler }]:
    the handler may end normally or rethrow with [throw;]. *)
Definition try_catch_system_error {A} (body : Completion A)
    (handler : error_code -> TaskException -> Completion A) : Completion A :=
  match body with
  | Throws (SystemError code) => handler code (SystemError code)
  | other => other
  end.

(** <<
    try { std::rethrow_exception(ex_ptr); }
    catch (const boost::system::system_error& e) {
        if (e.code() != boost::system::errc::operation_canceled) throw;
    }
>> *)
Definition rethrow_unless_cancelled (ex_ptr : exception_ptr) : Completion unit :=
  try_catch_system_error (rethrow_exception ex_ptr)
    (fun code e =>
       if negb (is_operation_canceled code) then Throws e else Returns tt).

(** The promise [rlpx_server_task_]: [true] once its value is set.
    [set_value] on a promise already satisfied throws [std::future_error]. *)
Definition set_value (promise : bool) : Completion unit * bool :=
  if promise then (Throws (OtherException "Promise already satisfied"), promise)
  else (Returns tt, true).

(** The completion handler given to [co_spawn]:
<<
    rethrow_unless_cancelled(ex_ptr);
    this->rlpx_server_task_.set_value();
>> *)
Definition rlpx_server_task_completion (ex_ptr : exception_ptr) (promise : bool)
    : Completion unit * bool :=
  match rethrow_unless_cancelled ex_ptr with
  | Returns _ => set_value promise
  | Throws e => (Throws e, promise)
  | UndefinedRethrow => (UndefinedRethrow, promise)
  end.

End SentryTask.

Arguments SystemError {error_code} code.
Arguments OtherException {error_code} what.
Arguments Returns {error_code A} a.
Arguments Throws {error_code A} e.
Arguments UndefinedRethrow {error_code A}.

(** ** [SentryImpl]: construction, [stop], [join] *)

(** How far an operation of [SentryImpl] gets: it returns, it throws, or it
    does not get to its end (a loop still running when the fuel is spent, a
    wait on a future that is not ready). *)
Inductive Progress (E A : Type) : Type :=
| Finished (a : A)
| Raised (e : E)
| Pending.
Arguments Finished {E A} a.
Arguments Raised {E A} e.
Arguments Pending {E A}.

(** The calls [SentryImpl::stop] and [SentryImpl::join] make on the members. *)
Inductive SentryCall : Type :=
| CallRpcShutdown          (* rpc_server_.shutdown() *)
| CallEmitCancellation     (* stop_signal_.emit(asio::cancellation_type::all) *)
| CallRpcJoin              (* rpc_server_.join() *)
| CallPoolStop             (* context_pool_.stop() *)
| CallPoolJoin.            (* context_pool_.join() *)

Section SentryImplModel.

Variable error_code : Type.
Variable is_operation_canceled : error_code -> bool.

(** [silkworm::rpc::WaitMode] and [silkworm::rpc::ServerContextPool], with
    its constructor and [add_context]; their code is not in these sources. *)
Variable WaitMode : Type.
Variable ContextPool : Type.
Variable new_pool : Z -> ContextPool.
Variable add_context :
  ContextPool -> WaitMode -> TaskException error_code + ContextPool.

(** The fields of [Settings] that the constructor reads. *)
Record Settings : Type := mkSettings {
  api_address : string;
  num_contexts : Z;
  wait_mode : WaitMode;
  port : Z
}.

(** The loop of the constructor:
<<
    for (size_t i = 0; i < settings_.num_contexts; i++) {
        context_pool_.add_context(make_unique<DummyServerCompletionQueue>(),
                                  settings_.wait_mode);
    }
>> *)
Fixpoint add_contexts (fuel : nat) (settings : Settings) (i : Z)
    (pool : ContextPool) : Progress (TaskException error_code) ContextPool :=
  if i <? num_contexts settings then
    match fuel with
    | O => Pending
    | S fuel' =>
        match add_context pool (wait_mode settings) with
        | inl e => Raised e
        | inr pool' => add_contexts fuel' settings (wrap (i + 1)) pool'
        end
    end
  else Finished pool.

(** The context pool the constructor leaves: [context_pool_] is built for
    [num_contexts] contexts, then filled by the loop, which makes
    [num_contexts] iterations at most. *)
Definition SentryImpl_context_pool (settings : Settings)
    : Progress (TaskException error_code) ContextPool :=
  add_contexts (Z.to_nat (num_contexts settings)) settings 0
               (new_pool (num_contexts settings)).

(** [k] calls of [add_context] in a row, up to the first that throws. *)
Fixpoint add_context_times (k : nat) (wm : WaitMode) (pool : ContextPool)
    : Progress (TaskException error_code) ContextPool :=
  match k with
  | O => Finished pool
  | S k' =>
      match add_context pool wm with
      | inl e => Raised e
      | inr pool' => add_context_times k' wm pool'
      end
  end.

(** The members of [SentryImpl] that [stop], [join] and the task completion
    act on: the promise [rlpx_server_task_] ([true] once satisfied), whether
    its future was retrieved, and the calls made so far on the servers and
    the context pool. *)
Record SentryImpl : Type := mkSentryImpl {
  rlpx_server_task_ : bool;
  future_retrieved : bool;
  calls : list SentryCall
}.

(** <<
    void SentryImpl::stop() {
        rpc_server_.shutdown();
        stop_signal_.emit(asio::cancellation_type::all);
    }
>> *)
Definition SentryImpl_stop (impl : SentryImpl) : SentryImpl :=
  mkSentryImpl (rlpx_server_task_ impl) (future_retrieved impl)
               (calls impl ++ [CallRpcShutdown; CallEmitCancellation]).

(** The completion handler of the rlpx server task, run on [impl]. *)
Definition SentryImpl_task_completed (ex_ptr : exception_ptr error_code)
    (impl : SentryImpl) : Completion error_code unit * SentryImpl :=
  let (c, promise) :=
    rlpx_server_task_completion error_code is_operation_canceled ex_ptr
      (rlpx_server_task_ impl) in
  (c, mkSentryImpl promise (future_retrieved impl) (calls impl)).

(** <<
    void SentryImpl::join() {
        rpc_server_.join();
        rlpx_server_task_.get_future().wait();
        context_pool_.stop();
        context_pool_.join();
    }
>>
    [get_future] throws [std::future_error] when the future was retrieved
    before; [wait] does not return until the promise is satisfied. *)
Definition SentryImpl_join (impl : SentryImpl)
    : Progress (TaskException error_code) unit * SentryImpl :=
  let joined := calls impl ++ [CallRpcJoin] in
  if future_retrieved impl then
    (Raised (OtherException "Future already retrieved"),
     mkSentryImpl (rlpx_server_task_ impl) true joined)
  else if rlpx_server_task_ impl then
    (Finished tt,
     mkSentryImpl true true (joined ++ [CallPoolStop; CallPoolJoin]))
  else
    (Pending, mkSentryImpl false true joined).

End SentryImplModel.

(** ** A sample world

    Concrete collaborators on which the model can be run.  The world counts
    the calls made so far; stage 0 is the headers stage, stage 1 the bodies
    stage. *)

Definition sample_result (st : Status) : Result := mkResult st (Some 100) (Some []).

Definition sample_result_init : Result := mkResult Unspecified None None.

(** The headers stage is always [Done]; the bodies stage asks for an unwind
    until the twelfth call into the world, then fails. *)
Definition sample_forward (st : nat) (first_sync : bool) (w : nat)
    : (Exception + Result) * nat :=
  (inr (match st with
        | O => sample_result Done
        | S _ => if (w <? 12)%nat then sample_result UnwindNeeded
                 else sample_result Error
        end), S w).

Definition sample_unwind_to (st : nat) (point : BlockNum) (bad : Hash) (w : nat)
    : (Exception + Result) * nat :=
  (inr (sample_result Done), S w).

Definition sample_chain (argv : list string) : Z :=
  match argv with
  | _ :: "--chain"%string :: "goerli"%string :: _ => 5
  | _ :: "--chain"%string :: "rinkeby"%string :: _ => 4
  | _ => 1
  end.

(** The sample parser knows [--chain] and refuses [--bogus]. *)
Definition sample_parse (argv : list string) (ns : NodeSettings) (w : nat)
    : (Exception + (CommandLine * NodeSettings)) * nat :=
  match argv with
  | _ :: "--bogus"%string :: _ => (inl (ParseError 109), S w)
  | _ =>
      (inr (mkCommandLine None None None None,
            mkNodeSettings (sentry_api_addr ns)
                           (Some (mkChainConfig (sample_chain argv)))), S w)
  end.

(** A collaborator that returns [a]. *)
Definition succeed {A} (a : A) (w : nat) : (Exception + A) * nat := (inr a, S w).

(** A collaborator that throws. *)
Definition fail_with {A} (what : string) (w : nat) : (Exception + A) * nat :=
  (inl (StdException what), S w).

(** Stages that are [Done] whatever they are asked. *)
Definition sample_always_done (st : nat) (first_sync : bool) (w : nat)
    : (Exception + Result) * nat :=
  (inr (sample_result Done), S w).

(** A parser that finds the four options of [main] on the command line. *)
Definition sample_parse_options (argv : list string) (ns : NodeSettings) (w : nat)
    : (Exception + (CommandLine * NodeSettings)) * nat :=
  (inr (mkCommandLine (Some 64) (Some 8) (Some 10) (Some 500),
        mkNodeSettings (sentry_api_addr ns) (Some (mkChainConfig 1))), S w).

(** A context pool that is the list of the wait modes of its contexts. *)
Definition sample_add_context (pool : list nat) (wait_mode : nat)
    : TaskException Z + list nat :=
  inr (pool ++ [wait_mode]).

(** ** The downloader: [cmd/downloader.cpp] *)

Section Downloader.

(** The state of everything outside the program: database, network, peers. *)
Variable World : Type.

(** [Stage*]: a pointer to a stage object.  The two virtual methods are
    dispatched on the pointer; they may change the world, and return a
    result or throw. *)
Variable Stage : Type.
Variable stage_forward : Stage -> bool -> World -> (Exception + Result) * World.
Variable stage_unwind_to :
  Stage -> BlockNum -> Hash -> World -> (Exception + Result) * World.

(** [Stage::Result result;] without an initialiser: whatever value the
    declaration in [stage.hpp] leaves in it. *)
Variable result_init : Result.

(** What the program does to the outside, in order. *)
Inductive Event : Type :=
| EvParseCommandLine
| EvPreflight
| EvOpenDb
| EvReadHead
| EvSentryConnect (addr : string)
| EvSentrySetStatus
| EvSentryHandShake
| EvSpawn (t : Thread)
| EvBlockExchangeCreate
| EvForward (st : Stage) (first_sync : bool) (out : Exception + Result)
| EvUnwindTo (st : Stage) (point : BlockNum) (bad : Hash) (out : Exception + Result)
| EvLog (key : string) (value : Z)
| EvPrint (msg : string)
| EvBlockExchangeStop
| EvJoin (t : Thread).

Record State : Type := mkState {
  world : World;
  trace : list Event;            (* oldest event first *)
  joinable : list Thread;        (* std::thread objects that are joinable *)
  body_sequence : Tunables       (* the statics of BodySequence *)
}.

(** *** A state monad with exceptions *)

Definition M (A : Type) : Type := State -> Res A * State.

Definition ret {A} (a : A) : M A := fun s => (Val a, s).

Definition bind {A B} (c : M A) (k : A -> M B) : M B :=
  fun s =>
    match c s with
    | (Val a, s') => k a s'
    | (Throw e, s') => (Throw e, s')
    | (Undef, s') => (Undef, s')
    | (Diverge, s') => (Diverge, s')
    end.

Definition throw {A} (e : Exception) : M A := fun s => (Throw e, s).
Definition undef {A} : M A := fun s => (Undef, s).
Definition diverge {A} : M A := fun s => (Diverge, s).

Notation "x <- c1 ;; c2" := (bind c1 (fun x => c2))
  (at level 61, c1 at next level, right associativity).
Notation "' pat <- c1 ;; c2" := (bind c1 (fun x => match x with pat => c2 end))
  (at level 61, pat pattern, c1 at next level, right associativity).
Notation "c1 ;; c2" := (bind c1 (fun _ => c2))
  (at level 61, right associativity).

Definition emit (ev : Event) : M unit :=
  fun s => (Val tt, mkState (world s) (trace s ++ [ev]) (joinable s) (body_sequence s)).

(** A call into a collaborator: it acts on the world and returns or throws;
    the event built from its outcome is appended to the trace. *)
Definition call {A} (f : World -> (Exception + A) * World)
    (ev : Exception + A -> Event) : M A :=
  fun s =>
    let (out, w) := f (world s) in
    let s' := mkState w (trace s ++ [ev out]) (joinable s) (body_sequence s) in
    match out with
    | inl e => (Throw e, s')
    | inr a => (Val a, s')
    end.

(** [stages[i]] on a [std::array<Stage*, N>]: out of bounds is undefined. *)
Definition at_index (stages : list Stage) (i : Z) : M Stage :=
  match nth_error stages (Z.to_nat i) with
  | Some st => ret st
  | None => undef
  end.

(** [*opt] on a [std::optional]: empty is undefined. *)
Definition deref {A} (o : option A) : M A :=
  match o with
  | Some a => ret a
  | None => undef
  end.

Definition call_forward (st : Stage) (first_sync : bool) : M Result :=
  call (stage_forward st first_sync) (EvForward st first_sync).

Definition call_unwind_to (st : Stage) (point : BlockNum) (bad : Hash) : M Result :=
  call (stage_unwind_to st point bad) (EvUnwindTo st point bad).

(** *** [forward]: the forwarding phase

<<
  for (size_t i = 0; i < N; ++i) {
      result = stages[i]->forward(first_sync);
      if (result.status == Status::UnwindNeeded) return {result, i};
  }
  return {result, N - 1};
>> *)
Fixpoint forward_loop (fuel : nat) (stages : list Stage) (first_sync : bool)
    (i : Z) (result : Result) : M (Result * Z) :=
  if i <? Z.of_nat (length stages) then
    match fuel with
    | O => diverge
    | S fuel' =>
        st <- at_index stages i ;;
        result <- call_forward st first_sync ;;
        if Status_eqb (status result) UnwindNeeded then ret (result, i)
        else forward_loop fuel' stages first_sync (wrap (i + 1)) result
    end
  else ret (result, wrap (Z.of_nat (length stages) - 1)).

(** The loop variable runs over [0 .. N-1]: [N] iterations at most. *)
Definition forward (stages : list Stage) (first_sync : bool) : M (Result * Z) :=
  forward_loop (length stages) stages first_sync 0 result_init.

(** *** [unwind]: the unwinding phase

<<
  for (size_t i = last_stage; i <= 0; --i) {  // reverse loop
      result = stages[i]->unwind_to(unwind_point, bad_block);
      if (result.status == Status::Error) break;
  }
  return result;
>>
    The loop function also returns the value of [i] when the loop is left. *)
Fixpoint unwind_loop (fuel : nat) (stages : list Stage) (point : BlockNum)
    (bad : Hash) (i : Z) (result : Result) : M (Result * Z) :=
  if i <=? 0 then
    match fuel with
    | O => diverge
    | S fuel' =>
        st <- at_index stages i ;;
        result <- call_unwind_to st point bad ;;
        if Status_eqb (status result) Error then ret (result, i)
        else unwind_loop fuel' stages point bad (wrap (i - 1)) result
    end
  else ret (result, i).

(** A reverse loop from [last_stage] makes [last_stage + 1] iterations at
    most; the fuel is that bound. *)
Definition unwind (stages : list Stage) (point : BlockNum) (bad : Hash)
    (last_stage : Z) : M Result :=
  '(result, _) <- unwind_loop (S (Z.to_nat last_stage)) stages point bad
                    last_stage result_init ;;
  ret result.

(** *** The stage loop of [main]

<<
    do {
        std::tie(result, last_stage) = forward(stages, first_sync);
        if (result.status == Status::UnwindNeeded) {
            result = unwind(stages, *result.unwind_point, *result.bad_block, last_stage);
        }
        first_sync = false;
    } while (result.status != Status::Error);
>> *)

(** The [if] of the loop body: an unwind pass when the forward pass asks
    for it. *)
Definition unwind_if_needed (stages : list Stage) (result : Result)
    (last_stage : Z) : M Result :=
  if Status_eqb (status result) UnwindNeeded then
    point <- deref (unwind_point result) ;;
    bad <- deref (bad_block result) ;;
    unwind stages point bad last_stage
  else ret result.

(** One iteration of the loop body. *)
Definition pass (stages : list Stage) (first_sync : bool) : M Result :=
  ' (result, last_stage) <- forward stages first_sync ;;
  unwind_if_needed stages result last_stage.

(** The [do ... while] loop need not terminate: it runs on fuel, one unit per
    iteration. *)
Fixpoint stage_loop (fuel : nat) (stages : list Stage) (first_sync : bool)
    : M Result :=
  match fuel with
  | O => diverge
  | S fuel' =>
      result <- pass stages first_sync ;;
      (* first_sync = false; *)
      if negb (Status_eqb (status result) Error)
      then stage_loop fuel' stages false
      else ret result
  end.

(** *** [main] *)

(** The collaborators of [main]; none of them is defined in these sources.
    What the worker threads do meanwhile is part of the world. *)
Variable parse_silkworm_command_line :
  list string -> NodeSettings -> World ->
  (Exception + (CommandLine * NodeSettings)) * World.
Variable run_preflight_checklist :
  NodeSettings -> World -> (Exception + NodeSettings) * World.
Variable db_open : NodeSettings -> World -> (Exception + unit) * World.
Variable head_status : World -> (Exception + (Hash * Z * BlockNum)) * World.
Variable sentry_connect : string -> World -> (Exception + unit) * World.
Variable sentry_set_status :
  Hash -> Z -> ChainIdentity -> World -> (Exception + unit) * World.
Variable sentry_hand_shake : World -> (Exception + unit) * World.
Variable block_exchange_new : ChainIdentity -> World -> (Exception + unit) * World.
Variable block_exchange_stop : World -> (Exception + unit) * World.
Variables header_stage body_stage : Stage.

(** [kMainnetConfig.chain_id], [kRopstenConfig.chain_id] and
    [kSepoliaConfig.chain_id], from the chain configuration table. *)
Variables kMainnet_chain_id kRopsten_chain_id kSepolia_chain_id : Z.

Definition set_tunables (f : Tunables -> Tunables) : M unit :=
  fun s => (Val tt, mkState (world s) (trace s) (joinable s) (f (body_sequence s))).

Definition set_kMaxBlocksPerMessage (v : Z) : M unit :=
  set_tunables (fun t => mkTunables v (kPerPeerMaxOutstandingRequests t)
                                    (kRequestDeadline t) (kNoPeerDelay t)).
Definition set_kPerPeerMaxOutstandingRequests (v : Z) : M unit :=
  set_tunables (fun t => mkTunables (kMaxBlocksPerMessage t) v
                                    (kRequestDeadline t) (kNoPeerDelay t)).
Definition set_kRequestDeadline (v : Z) : M unit :=
  set_tunables (fun t => mkTunables (kMaxBlocksPerMessage t)
                                    (kPerPeerMaxOutstandingRequests t) v (kNoPeerDelay t)).
Definition set_kNoPeerDelay (v : Z) : M unit :=
  set_tunables (fun t => mkTunables (kMaxBlocksPerMessage t)
                                    (kPerPeerMaxOutstandingRequests t) (kRequestDeadline t) v).

Definition get_tunables : M Tunables := fun s => (Val (body_sequence s), s).

(** The value of a variable bound to an option once the command line is
    parsed: the option's value when it is given, the old value otherwise. *)
Definition parsed (o : option Z) (old : Z) : Z :=
  match o with
  | Some v => v
  | None => old
  end.

(** [std::thread(...)]: the new thread object is joinable.  The construction
    is taken to succeed, and what the thread does from then on is not
    followed: the properties below speak of the main thread only. *)
Definition spawn (t : Thread) : M unit :=
  fun s => (Val tt, mkState (world s) (trace s ++ [EvSpawn t])
                            (joinable s ++ [t]) (body_sequence s)).

(** [t.join()]: afterwards the thread object is not joinable; joining one
    that is not joinable throws [std::system_error]. *)
Definition join (t : Thread) : M unit :=
  fun s =>
    if existsb (Thread_eqb t) (joinable s) then
      (Val tt, mkState (world s) (trace s ++ [EvJoin t])
                       (filter (fun u => negb (Thread_eqb t u)) (joinable s))
                       (body_sequence s))
    else (Throw (StdException "Invalid argument"), s).

Definition to_string (z : Z) : string := NilZero.string_of_int (Z.to_int z).

(** Lines 136-147: the EIP-2124 chain identity of the configured chain. *)
Definition select_chain_identity (node_settings : NodeSettings) : M ChainIdentity :=
  config <- deref (chain_config node_settings) ;;
  if chain_id config =? kMainnet_chain_id then ret kMainnetIdentity
  else if chain_id config =? kRopsten_chain_id then ret kRopstenIdentity
  else if chain_id config =? kSepolia_chain_id then ret kSepoliaIdentity
  else throw (StdException
                ("Chain id=" ++ to_string (chain_id config) ++ " not supported")).

(** Lines 78-130: defaults, option registration, command line.  Logging is
    left out but for the four "BlockExchange parameter" messages, which show
    the option variables.  The stores of the parser are made when it
    returns; what a parser that throws has stored before is not followed,
    and no property below speaks of the option variables in that case but
    for the two durations, which are bound to no option. *)
Definition configure (argv : list string) : M NodeSettings :=
  let node_settings := mkNodeSettings "127.0.0.1:9091" None in
  set_kMaxBlocksPerMessage 128 ;;
  set_kPerPeerMaxOutstandingRequests 4 ;;
  let requestDeadlineSeconds := 30 in
  let noPeerDelayMilliseconds := 1000 in
  (* the four add_option calls bind the two statics and the two locals *)
  set_kRequestDeadline requestDeadlineSeconds ;;
  set_kNoPeerDelay noPeerDelayMilliseconds ;;
  ' (cl, node_settings) <-
     call (parse_silkworm_command_line argv node_settings)
          (fun _ => EvParseCommandLine) ;;
  (* the parser has stored each option given into the variable bound to it *)
  tunables <- get_tunables ;;
  set_kMaxBlocksPerMessage
    (parsed (max_blocks_per_req cl) (kMaxBlocksPerMessage tunables)) ;;
  set_kPerPeerMaxOutstandingRequests
    (parsed (max_requests_per_peer cl) (kPerPeerMaxOutstandingRequests tunables)) ;;
  let requestDeadlineSeconds :=
    parsed (request_deadline_s cl) requestDeadlineSeconds in
  let noPeerDelayMilliseconds :=
    parsed (no_peer_delay_ms cl) noPeerDelayMilliseconds in
  tunables <- get_tunables ;;
  emit (EvLog "--max_blocks_per_req" (kMaxBlocksPerMessage tunables)) ;;
  emit (EvLog "--max_requests_per_peer" (kPerPeerMaxOutstandingRequests tunables)) ;;
  emit (EvLog "--request_deadline_s" requestDeadlineSeconds) ;;
  emit (EvLog "--no_peer_delay_ms" noPeerDelayMilliseconds) ;;
  ret node_settings.

(** Lines 132-174: database, chain identity, sentry client, worker threads,
    block exchange. *)
Definition connect (node_settings : NodeSettings) : M unit :=
  node_settings <- call (run_preflight_checklist node_settings)
                        (fun _ => EvPreflight) ;;
  chain_identity <- select_chain_identity node_settings ;;
  call (db_open node_settings) (fun _ => EvOpenDb) ;;
  ' (head_hash, head_td, head_height) <- call head_status (fun _ => EvReadHead) ;;
  call (sentry_connect (sentry_api_addr node_settings))
       (fun _ => EvSentryConnect (sentry_api_addr node_settings)) ;;
  call (sentry_set_status head_hash head_td chain_identity)
       (fun _ => EvSentrySetStatus) ;;
  call sentry_hand_shake (fun _ => EvSentryHandShake) ;;
  spawn message_receiving ;;
  spawn stats_receiving ;;
  call (block_exchange_new chain_identity) (fun _ => EvBlockExchangeCreate) ;;
  spawn block_downloading.

(** Lines 176-196: the sample stage loop with two stages.  The stages are
    given; their constructors (lines 178-179) are not followed. *)
Definition main_stage_loop (fuel : nat) : M Result :=
  let first_sync := true in
  let stages := [header_stage; body_stage] in
  stage_loop fuel stages first_sync.

(** Lines 198-204. *)
Definition shutdown : M unit :=
  emit (EvPrint "Downloader stage-loop ended") ;;
  call block_exchange_stop (fun _ => EvBlockExchangeStop) ;;
  join message_receiving ;;
  join stats_receiving ;;
  join block_downloading.

(** The body of the [try] block. *)
Definition main_try (argv : list string) (fuel : nat) : M unit :=
  node_settings <- configure argv ;;
  connect node_settings ;;
  main_stage_loop fuel ;;
  shutdown.

(** Leaving the [try] block, normally or by an exception, destroys its
    locals before anything else happens; the destructor of a [std::thread]
    that is still joinable calls [std::terminate].  The block can be left
    safely when no thread object is joinable. *)
Definition no_joinable_thread (s : State) : bool :=
  match joinable s with
  | [] => true
  | _ :: _ => false
  end.

(** [main]: [return_value] is 0 unless a handler sets it.  The handler of
    [CLI::ParseError] returns what [app.exit(ex)] gives; the handler of
    [std::exception] reports the exception on [cerr] (recorded here by its
    [what()]) and returns 1. *)
Definition main (argv : list string) (fuel : nat) (s : State) : Exit * State :=
  let return_value := 0 in
  match main_try argv fuel s with
  | (Val _, s') =>
      if no_joinable_thread s' then (ExitCode return_value, s') else (Terminated, s')
  | (Throw e, s') =>
      if no_joinable_thread s' then
        match e with
        | ParseError exit_code => (ExitCode exit_code, s')      (* app.exit(ex) *)
        | StdException what =>
            (ExitCode 1, mkState (world s') (trace s' ++ [EvPrint what])
                                 (joinable s') (body_sequence s'))
        end
      else (Terminated, s')
  | (Undef, s') => (UndefinedBehaviour, s')
  | (Diverge, s') => (Running, s')
  end.

(** ** Vocabulary of the properties *)

(** What a computation may do to the state besides changing the world: it
    appends events, all of them in [Q], and leaves threads and tunables. *)
Definition grows (Q : Event -> Prop) (s s' : State) : Prop :=
  joinable s' = joinable s /\ body_sequence s' = body_sequence s /\
  exists evs, trace s' = trace s ++ evs /\ Forall Q evs.

(** A computation that only [grows] the state, from any state. *)
Definition keeps {A} (Q : Event -> Prop) (c : M A) : Prop :=
  forall s, grows Q s (snd (c s)).

(** An event of a forward pass that gives [first_sync] to the stage. *)
Definition forward_with (first_sync : bool) (ev : Event) : Prop :=
  match ev with
  | EvForward _ fs _ => fs = first_sync
  | _ => False
  end.

(** An event of an unwind pass. *)
Definition is_unwind_to (ev : Event) : Prop :=
  match ev with
  | EvUnwindTo _ _ _ _ => True
  | _ => False
  end.

(** An event of a loop iteration that gives [first_sync] to the stages. *)
Definition pass_with (first_sync : bool) (ev : Event) : Prop :=
  match ev with
  | EvForward _ fs _ => fs = first_sync
  | EvUnwindTo _ _ _ _ => True
  | _ => False
  end.

(** The events of calling [forward] on [stages], in order, with outcomes
    [outs]. *)
Definition forward_events (first_sync : bool) (stages : list Stage)
    (outs : list (Exception + Result)) : list Event :=
  map (fun p => EvForward (fst p) first_sync (snd p)) (combine stages outs).

(** The stages [sts] are called in order, the first from world [w] and each
    next one from the world left by the call before it: [stage_forward]
    returns the results [rs], none of status [UnwindNeeded], and the last
    call leaves the world [w']. *)
Inductive forwarded (first_sync : bool)
    : list Stage -> World -> list Result -> World -> Prop :=
| forwarded_nil (w : World) : forwarded first_sync [] w [] w
| forwarded_cons (st : Stage) (sts : list Stage) (w w1 w' : World)
    (r : Result) (rs : list Result) :
    stage_forward st first_sync w = (inr r, w1) ->
    status r <> UnwindNeeded ->
    forwarded first_sync sts w1 rs w' ->
    forwarded first_sync (st :: sts) w (r :: rs) w'.

(** The [first_sync] flags given to [forward], in the order of the calls. *)
Definition forward_flags (evs : list Event) : list bool :=
  flat_map (fun ev => match ev with
                      | EvForward _ first_sync _ => [first_sync]
                      | _ => []
                      end) evs.

(** The stage of this event returned [Done] from [forward]. *)
Definition returned_Done (ev : Event) : Prop :=
  match ev with
  | EvForward _ _ (inr r) => status r = Done
  | _ => False
  end.

(** The tunables are the same after a computation. *)
Definition steady {A} (c : M A) : Prop :=
  forall s, body_sequence (snd (c s)) = body_sequence s.

(** The events that happen before the database is opened. *)
Definition startup_event (ev : Event) : Prop :=
  match ev with
  | EvParseCommandLine | EvLog _ _ | EvPreflight | EvPrint _ => True
  | _ => False
  end.

(** *** Vocabulary of the further properties *)

(** An event of the stage loop, where [unwind_to] is called on [st0] only. *)
Definition unwind_only_on (st0 : Stage) (ev : Event) : Prop :=
  match ev with
  | EvForward _ _ _ => True
  | EvUnwindTo st _ _ _ => st = st0
  | _ => False
  end.

(** A [forward] event whose result, when there is one, satisfies [P]. *)
Definition forward_result (P : Result -> Prop) (ev : Event) : Prop :=
  match ev with
  | EvForward _ _ (inr r) => P r
  | EvForward _ _ (inl _) => True
  | _ => False
  end.

(** A result that asks for an unwind says where to and why. *)
Definition unwind_request_complete (r : Result) : Prop :=
  status r = UnwindNeeded -> unwind_point r <> None /\ bad_block r <> None.

(** The steps of [connect] (lines 132-174), in the order of the source. *)
Definition startup_sequence (addr : string) : list Event :=
  [EvPreflight; EvOpenDb; EvReadHead; EvSentryConnect addr; EvSentrySetStatus;
   EvSentryHandShake; EvSpawn message_receiving; EvSpawn stats_receiving;
   EvBlockExchangeCreate; EvSpawn block_downloading].

(** The chain identity selection (lines 136-147) reads the settings only:
    it has the outcome [out] in every state, and leaves the state. *)
Definition chain_identity_is (ns : NodeSettings) (out : Res ChainIdentity) : Prop :=
  forall s, select_chain_identity ns s = (out, s).

(** The steps of the start-up that returned, each of them called on the
    world left by the step before it, the first on [w0]; the last argument
    is the world left by the last of them.  The preflight checks gave the
    settings [ns'], whose chain has the identity [ci]; the head of the chain
    has hash [hh] and total difficulty [td]. *)
Definition preflight_passed (ns : NodeSettings) (w0 : World)
    (ns' : NodeSettings) (ci : ChainIdentity) (w1 : World) : Prop :=
  run_preflight_checklist ns w0 = (inr ns', w1) /\
  chain_identity_is ns' (Val ci).

Definition database_opened (ns : NodeSettings) (w0 : World)
    (ns' : NodeSettings) (ci : ChainIdentity) (w2 : World) : Prop :=
  exists w1, preflight_passed ns w0 ns' ci w1 /\ db_open ns' w1 = (inr tt, w2).

Definition head_read (ns : NodeSettings) (w0 : World)
    (ns' : NodeSettings) (ci : ChainIdentity) (hh : Hash) (td : Z) (w3 : World)
    : Prop :=
  exists w2 height,
    database_opened ns w0 ns' ci w2 /\ head_status w2 = (inr (hh, td, height), w3).

Definition sentry_connected (ns : NodeSettings) (w0 : World)
    (ns' : NodeSettings) (ci : ChainIdentity) (hh : Hash) (td : Z) (w4 : World)
    : Prop :=
  exists w3,
    head_read ns w0 ns' ci hh td w3 /\
    sentry_connect (sentry_api_addr ns') w3 = (inr tt, w4).

Definition status_set (ns : NodeSettings) (w0 : World)
    (ns' : NodeSettings) (ci : ChainIdentity) (hh : Hash) (td : Z) (w5 : World)
    : Prop :=
  exists w4,
    sentry_connected ns w0 ns' ci hh td w4 /\
    sentry_set_status hh td ci w4 = (inr tt, w5).

Definition hand_shaken (ns : NodeSettings) (w0 : World)
    (ns' : NodeSettings) (ci : ChainIdentity) (hh : Hash) (td : Z) (w6 : World)
    : Prop :=
  exists w5,
    status_set ns w0 ns' ci hh td w5 /\ sentry_hand_shake w5 = (inr tt, w6).

(** The first failure of the start-up, up to the handshake:
    [startup_failure ns w0 evs e w] when one of the steps of lines 133-168
    throws [e] and leaves the world [w], the steps before it having
    returned; [evs] are the steps made, the failing one included. *)
Inductive startup_failure (ns : NodeSettings) (w0 : World)
    : list Event -> Exception -> World -> Prop :=
| preflight_fails (e : Exception) (w1 : World) :
    run_preflight_checklist ns w0 = (inl e, w1) ->
    startup_failure ns w0 [EvPreflight] e w1
| chain_identity_fails (ns' : NodeSettings) (e : Exception) (w1 : World) :
    run_preflight_checklist ns w0 = (inr ns', w1) ->
    chain_identity_is ns' (Throw e) ->
    startup_failure ns w0 [EvPreflight] e w1
| db_open_fails (ns' : NodeSettings) (ci : ChainIdentity) (w1 : World)
    (e : Exception) (w2 : World) :
    preflight_passed ns w0 ns' ci w1 ->
    db_open ns' w1 = (inl e, w2) ->
    startup_failure ns w0 [EvPreflight; EvOpenDb] e w2
| head_status_fails (ns' : NodeSettings) (ci : ChainIdentity) (w2 : World)
    (e : Exception) (w3 : World) :
    database_opened ns w0 ns' ci w2 ->
    head_status w2 = (inl e, w3) ->
    startup_failure ns w0 [EvPreflight; EvOpenDb; EvReadHead] e w3
| sentry_connect_fails (ns' : NodeSettings) (ci : ChainIdentity) (hh : Hash)
    (td : Z) (w3 : World) (e : Exception) (w4 : World) :
    head_read ns w0 ns' ci hh td w3 ->
    sentry_connect (sentry_api_addr ns') w3 = (inl e, w4) ->
    startup_failure ns w0
      [EvPreflight; EvOpenDb; EvReadHead; EvSentryConnect (sentry_api_addr ns')]
      e w4
| set_status_fails (ns' : NodeSettings) (ci : ChainIdentity) (hh : Hash)
    (td : Z) (w4 : World) (e : Exception) (w5 : World) :
    sentry_connected ns w0 ns' ci hh td w4 ->
    sentry_set_status hh td ci w4 = (inl e, w5) ->
    startup_failure ns w0
      [EvPreflight; EvOpenDb; EvReadHead; EvSentryConnect (sentry_api_addr ns');
       EvSentrySetStatus]
      e w5
| hand_shake_fails (ns' : NodeSettings) (ci : ChainIdentity) (hh : Hash)
    (td : Z) (w5 : World) (e : Exception) (w6 : World) :
    status_set ns w0 ns' ci hh td w5 ->
    sentry_hand_shake w5 = (inl e, w6) ->
    startup_failure ns w0
      [EvPreflight; EvOpenDb; EvReadHead; EvSentryConnect (sentry_api_addr ns');
       EvSentrySetStatus; EvSentryHandShake]
      e w6.

(** The exit code that the handlers of [main] give for an exception. *)
Definition handled_exit (e : Exception) : Exit :=
  match e with
  | ParseError exit_code => ExitCode exit_code
  | StdException _ => ExitCode 1
  end.

(** What the handlers of [main] write for an exception. *)
Definition handled_report (e : Exception) : list Event :=
  match e with
  | ParseError _ => []
  | StdException what => [EvPrint what]
  end.

(** ** Properties *)

(** *** [size_t] arithmetic *)

Lemma wrap_small (z : Z) : 0 <= z <= SIZE_MAX -> wrap z = z.
Proof.
  unfold wrap, SIZE_MAX, size_modulus. intros H. apply Z.mod_small. lia.
Qed.

Lemma wrap_minus_one : wrap (0 - 1) = SIZE_MAX.
Proof. reflexivity. Qed.

Lemma Status_eqb_eq (a b : Status) : Status_eqb a b = true <-> a = b.
Proof. destruct a, b; simpl; split; intros H; try reflexivity; discriminate. Qed.

Lemma Status_eqb_neq (a b : Status) : Status_eqb a b = false <-> a <> b.
Proof.
  destruct a, b; simpl; split; intros H; try reflexivity; try discriminate;
    try (exfalso; apply H; reflexivity).
Qed.

(** *** The monad *)


Lemma grows_refl Q s : grows Q s s.
Proof.
  repeat split. exists []. rewrite app_nil_r. split; [reflexivity | constructor].
Qed.

Lemma grows_trans Q s1 s2 s3 : grows Q s1 s2 -> grows Q s2 s3 -> grows Q s1 s3.
Proof.
  intros (J1 & B1 & e1 & T1 & F1) (J2 & B2 & e2 & T2 & F2).
  repeat split; try congruence.
  exists (e1 ++ e2). split.
  - rewrite T2, T1, app_assoc. reflexivity.
  - apply Forall_app. split; assumption.
Qed.

Lemma grows_weaken (Q Q' : Event -> Prop) s s' :
  (forall ev, Q ev -> Q' ev) -> grows Q s s' -> grows Q' s s'.
Proof.
  intros HQ (J & B & evs & T & F). repeat split; try assumption.
  exists evs. split; [assumption |]. eapply Forall_impl; eauto.
Qed.

Lemma keeps_weaken {A} (Q Q' : Event -> Prop) (c : M A) :
  (forall ev, Q ev -> Q' ev) -> keeps Q c -> keeps Q' c.
Proof. intros HQ H s. eapply grows_weaken; eauto. Qed.

Lemma keeps_ret {A} Q (a : A) : keeps Q (ret a).
Proof. intros s. apply grows_refl. Qed.

Lemma keeps_undef {A} Q : keeps Q (@undef A).
Proof. intros s. apply grows_refl. Qed.

Lemma keeps_diverge {A} Q : keeps Q (@diverge A).
Proof. intros s. apply grows_refl. Qed.

Lemma keeps_bind {A B} Q (c : M A) (k : A -> M B) :
  keeps Q c -> (forall a, keeps Q (k a)) -> keeps Q (bind c k).
Proof.
  intros Hc Hk s. unfold bind. specialize (Hc s).
  destruct (c s) as [[a | e | | ] s1]; simpl in *; try assumption.
  eapply grows_trans; [exact Hc | apply Hk].
Qed.

Lemma keeps_call {A} (Q : Event -> Prop) (f : World -> (Exception + A) * World) ev :
  (forall w, Q (ev (fst (f w)))) -> keeps Q (call f ev).
Proof.
  intros HQ s. unfold call. specialize (HQ (world s)).
  destruct (f (world s)) as [out w]. simpl in HQ.
  assert (G : grows Q s (mkState w (trace s ++ [ev out]) (joinable s) (body_sequence s))).
  { repeat split. exists [ev out]. split; [reflexivity |]. constructor; [exact HQ | constructor]. }
  destruct out; exact G.
Qed.

Lemma keeps_emit (Q : Event -> Prop) ev : Q ev -> keeps Q (emit ev).
Proof.
  intros HQ s. repeat split. exists [ev]. split; [reflexivity |].
  constructor; [exact HQ | constructor].
Qed.

Lemma keeps_at_index Q stages i : keeps Q (at_index stages i).
Proof.
  unfold at_index. destruct (nth_error stages (Z.to_nat i)).
  - apply keeps_ret.
  - apply keeps_undef.
Qed.

Lemma keeps_deref {A} Q (o : option A) : keeps Q (deref o).
Proof. destruct o; [apply keeps_ret | apply keeps_undef]. Qed.

Lemma keeps_forward_loop fuel stages first_sync : forall i result,
  keeps (forward_with first_sync) (forward_loop fuel stages first_sync i result).
Proof.
  induction fuel as [| fuel IH]; intros i result; simpl;
    destruct (i <? Z.of_nat (length stages)); try apply keeps_ret.
  - apply keeps_diverge.
  - apply keeps_bind; [apply keeps_at_index |]. intros st.
    apply keeps_bind; [apply keeps_call; intros w; reflexivity |]. intros r.
    destruct (Status_eqb (status r) UnwindNeeded); [apply keeps_ret | apply IH].
Qed.

Lemma keeps_forward stages first_sync :
  keeps (forward_with first_sync) (forward stages first_sync).
Proof. apply keeps_forward_loop. Qed.

Lemma keeps_unwind_loop fuel stages point bad : forall i result,
  keeps is_unwind_to (unwind_loop fuel stages point bad i result).
Proof.
  induction fuel as [| fuel IH]; intros i result; simpl;
    destruct (i <=? 0); try apply keeps_ret.
  - apply keeps_diverge.
  - apply keeps_bind; [apply keeps_at_index |]. intros st.
    apply keeps_bind; [apply keeps_call; intros w; exact I |]. intros r.
    destruct (Status_eqb (status r) Error); [apply keeps_ret | apply IH].
Qed.

Lemma keeps_unwind stages point bad last_stage :
  keeps is_unwind_to (unwind stages point bad last_stage).
Proof.
  unfold unwind. apply keeps_bind; [apply keeps_unwind_loop |].
  intros [r i]. apply keeps_ret.
Qed.

Lemma pass_with_forward first_sync ev :
  forward_with first_sync ev -> pass_with first_sync ev.
Proof. destruct ev; simpl; intros H; try contradiction; assumption. Qed.

Lemma pass_with_unwind first_sync ev : is_unwind_to ev -> pass_with first_sync ev.
Proof. destruct ev; simpl; intros H; try contradiction; exact I. Qed.

Lemma keeps_unwind_if_needed first_sync stages r last_stage :
  keeps (pass_with first_sync) (unwind_if_needed stages r last_stage).
Proof.
  unfold unwind_if_needed. destruct (Status_eqb (status r) UnwindNeeded).
  - apply keeps_bind; [apply keeps_deref |]. intros point.
    apply keeps_bind; [apply keeps_deref |]. intros bad.
    eapply keeps_weaken; [apply pass_with_unwind | apply keeps_unwind].
  - apply keeps_ret.
Qed.

Lemma keeps_pass stages first_sync :
  keeps (pass_with first_sync) (pass stages first_sync).
Proof.
  unfold pass. apply keeps_bind.
  - eapply keeps_weaken; [apply pass_with_forward | apply keeps_forward].
  - intros [r last_stage]. apply keeps_unwind_if_needed.
Qed.

Lemma keeps_stage_loop fuel stages :
  keeps (pass_with false) (stage_loop fuel stages false).
Proof.
  induction fuel as [| fuel IH]; simpl.
  - apply keeps_diverge.
  - apply keeps_bind; [apply keeps_pass |]. intros r.
    destruct (negb (Status_eqb (status r) Error)); [apply IH | apply keeps_ret].
Qed.


(** *** The forwarding phase *)

Lemma forward_loop_exit fuel stages first_sync i result :
  (i <? Z.of_nat (length stages)) = false ->
  forward_loop fuel stages first_sync i result
  = ret (result, wrap (Z.of_nat (length stages) - 1)).
Proof. intros H. destruct fuel; simpl; rewrite H; reflexivity. Qed.

Lemma forward_loop_step fuel stages first_sync i result :
  (i <? Z.of_nat (length stages)) = true ->
  forward_loop (S fuel) stages first_sync i result
  = (st <- at_index stages i ;;
     result <- call_forward st first_sync ;;
     if Status_eqb (status result) UnwindNeeded then ret (result, i)
     else forward_loop fuel stages first_sync (wrap (i + 1)) result).
Proof. intros H. simpl. rewrite H. reflexivity. Qed.

Lemma at_index_middle (done rest : list Stage) st :
  at_index (done ++ st :: rest) (Z.of_nat (length done)) = ret st.
Proof.
  unfold at_index. rewrite Nat2Z.id, nth_error_app2 by lia.
  rewrite Nat.sub_diag. reflexivity.
Qed.

Lemma at_index_out_of_bounds (stages : list Stage) (i : Z) :
  Z.of_nat (length stages) <= i -> at_index stages i = undef.
Proof.
  intros H. unfold at_index.
  assert (Hn : nth_error stages (Z.to_nat i) = None) by (apply nth_error_None; lia).
  rewrite Hn. reflexivity.
Qed.

(** The loop from index [length done] on, over the stages [rest] that are
    left: either none is left, or the stages are called in order up to the
    first that asks for an unwind or throws. *)
Lemma forward_loop_post : forall rest done fuel first_sync result s out s',
  Z.of_nat (length (done ++ rest)) <= SIZE_MAX ->
  (length rest <= fuel)%nat ->
  forward_loop fuel (done ++ rest) first_sync (Z.of_nat (length done)) result s
  = (out, s') ->
  (rest = [] /\ out = Val (result, wrap (Z.of_nat (length done) - 1)) /\ s' = s) \/
  exists rs st o,
    nth_error rest (length rs) = Some st /\
    Forall (fun r => status r <> UnwindNeeded) rs /\
    trace s' = trace s ++
      forward_events first_sync (firstn (length rs) rest) (map inr rs) ++
      [EvForward st first_sync o] /\
    match o with
    | inr r => out = Val (r, Z.of_nat (length done + length rs)) /\
               (status r = UnwindNeeded \/ S (length rs) = length rest)
    | inl e => out = Throw e
    end.
Proof.
  induction rest as [| st rest IH]; intros done fuel first_sync result s out s' HN Hfuel H.
  - left. rewrite forward_loop_exit in H.
    + rewrite app_nil_r in H. unfold ret in H. inversion H. auto.
    + rewrite app_nil_r. apply Z.ltb_ge. lia.
  - right. destruct fuel as [| fuel]; [simpl in Hfuel; lia |].
    rewrite forward_loop_step in H
      by (apply Z.ltb_lt; rewrite length_app; simpl; lia).
    rewrite at_index_middle in H. unfold bind at 1, ret at 1 in H.
    unfold bind, call_forward, call in H.
    destruct (stage_forward st first_sync (world s)) as [[e | r] w] eqn:Hcall.
    + inversion H; subst. exists [], st, (inl e). simpl.
      repeat split. constructor.
    + destruct (Status_eqb (status r) UnwindNeeded) eqn:Hst.
      * unfold ret in H. inversion H; subst. exists [], st, (inr r). simpl.
        rewrite Nat.add_0_r. apply Status_eqb_eq in Hst.
        repeat split; [constructor | left; exact Hst].
      * apply Status_eqb_neq in Hst.
        assert (Hlen : Z.of_nat (length (done ++ st :: rest)) =
                       Z.of_nat (length done) + 1 + Z.of_nat (length rest)).
        { rewrite length_app. simpl. lia. }
        rewrite wrap_small in H by lia.
        replace (Z.of_nat (length done) + 1) with (Z.of_nat (length (done ++ [st]))) in H
          by (rewrite length_app; simpl; lia).
        replace (done ++ st :: rest) with ((done ++ [st]) ++ rest) in H
          by (rewrite <- app_assoc; reflexivity).
        apply IH in H.
        -- destruct H as [(Hnil & Hout & Hs) | (rs & st' & o & Hnth & Hall & Htr & Ho)].
           ++ subst. exists [], st, (inr r). simpl.
              rewrite length_app. simpl. rewrite wrap_small by lia.
              repeat split; [constructor | | right; reflexivity].
              f_equal. f_equal. lia.
           ++ exists (r :: rs), st', o. simpl in *.
              repeat split; [assumption | constructor; assumption | |].
              ** rewrite Htr. simpl. rewrite <- app_assoc. reflexivity.
              ** destruct o as [e | r']; [exact Ho |].
                 destruct Ho as [Hout Hlast]. split.
                 --- rewrite Hout. rewrite length_app. simpl.
                     f_equal. f_equal. lia.
                 --- destruct Hlast as [Hu | Hl]; [left; exact Hu | right; lia].
        -- rewrite <- app_assoc. simpl. exact HN.
        -- simpl in Hfuel. lia.
Qed.

(** The last event of a forward pass over a non-empty array carries what
    the pass yields. *)
Lemma forward_last_event stages first_sync s out s' :
  1 <= Z.of_nat (length stages) <= SIZE_MAX ->
  forward stages first_sync s = (out, s') ->
  exists evs st o,
    trace s' = trace s ++ evs ++ [EvForward st first_sync o] /\
    match o with
    | inr r => exists k, out = Val (r, k)
    | inl e => out = Throw e
    end.
Proof.
  intros HN H. unfold forward in H.
  apply (forward_loop_post stages []) in H; [| simpl; lia | lia].
  destruct H as [(Hnil & _) | (rs & st & o & _ & _ & Htr & Ho)].
  - subst. simpl in HN. lia.
  - exists (forward_events first_sync (firstn (length rs) stages) (map inr rs)), st, o.
    split; [exact Htr |].
    destruct o as [e | r]; [exact Ho |].
    destruct Ho as [Hout _]. eexists. exact Hout.
Qed.

(** The loop from index [length done] on, with the worlds: every call is
    [stage_forward] on the stage at the index, from the world left by the
    call before it. *)
Lemma forward_loop_run : forall rest done fuel first_sync result s out s',
  Z.of_nat (length (done ++ rest)) <= SIZE_MAX ->
  (length rest <= fuel)%nat ->
  forward_loop fuel (done ++ rest) first_sync (Z.of_nat (length done)) result s
  = (out, s') ->
  (rest = [] /\ out = Val (result, wrap (Z.of_nat (length done) - 1)) /\ s' = s) \/
  exists rs st o w,
    nth_error rest (length rs) = Some st /\
    forwarded first_sync (firstn (length rs) rest) (world s) rs w /\
    stage_forward st first_sync w = (o, world s') /\
    trace s' = trace s ++
      forward_events first_sync (firstn (length rs) rest) (map inr rs) ++
      [EvForward st first_sync o] /\
    joinable s' = joinable s /\
    body_sequence s' = body_sequence s /\
    match o with
    | inr r => out = Val (r, Z.of_nat (length done + length rs)) /\
               (status r = UnwindNeeded \/ S (length rs) = length rest)
    | inl e => out = Throw e
    end.
Proof.
  induction rest as [| st rest IH]; intros done fuel first_sync result s out s' HN Hfuel H.
  - left. rewrite forward_loop_exit in H.
    + rewrite app_nil_r in H. unfold ret in H. inversion H. auto.
    + rewrite app_nil_r. apply Z.ltb_ge. lia.
  - right. destruct fuel as [| fuel]; [simpl in Hfuel; lia |].
    rewrite forward_loop_step in H
      by (apply Z.ltb_lt; rewrite length_app; simpl; lia).
    rewrite at_index_middle in H. unfold bind at 1, ret at 1 in H.
    unfold bind, call_forward, call in H.
    destruct (stage_forward st first_sync (world s)) as [[e | r] w] eqn:Hcall.
    + inversion H; subst. exists [], st, (inl e), (world s). simpl.
      repeat split; [constructor | exact Hcall].
    + destruct (Status_eqb (status r) UnwindNeeded) eqn:Hst.
      * unfold ret in H. inversion H; subst. exists [], st, (inr r), (world s). simpl.
        rewrite Nat.add_0_r. apply Status_eqb_eq in Hst.
        repeat split; [constructor | exact Hcall | left; exact Hst].
      * apply Status_eqb_neq in Hst.
        assert (Hlen : Z.of_nat (length (done ++ st :: rest)) =
                       Z.of_nat (length done) + 1 + Z.of_nat (length rest)).
        { rewrite length_app. simpl. lia. }
        rewrite wrap_small in H by lia.
        replace (Z.of_nat (length done) + 1) with (Z.of_nat (length (done ++ [st]))) in H
          by (rewrite length_app; simpl; lia).
        replace (done ++ st :: rest) with ((done ++ [st]) ++ rest) in H
          by (rewrite <- app_assoc; reflexivity).
        apply IH in H.
        -- destruct H as [(Hnil & Hout & Hs)
                         | (rs & st' & o & w' & Hnth & Hrun & Hlast & Htr & Hj & Hb & Ho)].
           ++ subst. exists [], st, (inr r), (world s). simpl.
              rewrite length_app. simpl. rewrite wrap_small by lia.
              repeat split; [constructor | exact Hcall | | right; reflexivity].
              f_equal. f_equal. lia.
           ++ exists (r :: rs), st', o, w'. simpl in *.
              repeat split; try assumption.
              ** econstructor; eassumption.
              ** rewrite Htr. simpl. rewrite <- app_assoc. reflexivity.
              ** destruct o as [e | r']; [exact Ho |].
                 destruct Ho as [Hout Hend]. split.
                 --- rewrite Hout. rewrite length_app. simpl.
                     f_equal. f_equal. lia.
                 --- destruct Hend as [Hu | Hl]; [left; exact Hu | right; lia].
        -- rewrite <- app_assoc. simpl. exact HN.
        -- simpl in Hfuel. lia.
Qed.

Lemma forwarded_not_UnwindNeeded first_sync sts w rs w' :
  forwarded first_sync sts w rs w' ->
  Forall (fun r => status r <> UnwindNeeded) rs.
Proof. induction 1; constructor; assumption. Qed.

(** C3: [forward] on an array of [N >= 1] stages invokes
    [stages[0]->forward(first_sync)], [stages[1]->forward(first_sync)], ... in
    increasing index order, up to some index [k = length rs], and nothing
    else.  Each call is [stage_forward] on the stage at the index, and runs
    on the world left by the call before it (the first on the world at
    entry): the calls on [stages[0 .. k-1]] returned the results [rs], none
    of status [UnwindNeeded], and left the world [w]; on [w] the call on
    [stages[k]] has the outcome [o] and leaves the world in which [forward]
    ends.  It is the last call.  When it returns a result [r], [forward]
    returns [r], the result of the last stage invoked, paired with [k], and
    either [r] has status [UnwindNeeded] (no later stage is called) or
    [k = N - 1].  (When it throws, [forward] ends with its exception.)  The
    events recorded are these calls with their outcomes; threads and
    tunables are untouched. *)
Theorem forward_in_array_order (stages : list Stage) (first_sync : bool)
    (s : State) (out : Res (Result * Z)) (s' : State) :
  1 <= Z.of_nat (length stages) <= SIZE_MAX ->
  forward stages first_sync s = (out, s') ->
  exists (rs : list Result) (st : Stage) (o : Exception + Result) (w : World),
    nth_error stages (length rs) = Some st /\
    forwarded first_sync (firstn (length rs) stages) (world s) rs w /\
    stage_forward st first_sync w = (o, world s') /\
    Forall (fun r => status r <> UnwindNeeded) rs /\
    trace s' = trace s ++
      forward_events first_sync (firstn (length rs) stages) (map inr rs) ++
      [EvForward st first_sync o] /\
    joinable s' = joinable s /\
    body_sequence s' = body_sequence s /\
    match o with
    | inr r => out = Val (r, Z.of_nat (length rs)) /\
               (status r = UnwindNeeded \/ S (length rs) = length stages)
    | inl e => out = Throw e
    end.
Proof.
  intros HN H. unfold forward in H.
  apply (forward_loop_run stages []) in H; [| simpl; lia | lia].
  destruct H as [(Hnil & _) | (rs & st & o & w & Hnth & Hrun & Hlast & Htr & Hj & Hb & Ho)].
  - subst. simpl in HN. lia.
  - exists rs, st, o, w.
    repeat split; try assumption.
    eapply forwarded_not_UnwindNeeded. exact Hrun.
Qed.

(** *** The unwinding phase *)

Lemma unwind_loop_exit fuel stages point bad i result :
  (i <=? 0) = false ->
  unwind_loop fuel stages point bad i result = ret (result, i).
Proof. intros H. destruct fuel; simpl; rewrite H; reflexivity. Qed.

Lemma unwind_loop_zero fuel st rest point bad result s o w :
  stage_unwind_to st point bad (world s) = (o, w) ->
  unwind_loop (S fuel) (st :: rest) point bad 0 result s
  = (match o with
     | inl e => Throw e
     | inr r => Val (r, if Status_eqb (status r) Error then 0 else SIZE_MAX)
     end,
     mkState w (trace s ++ [EvUnwindTo st point bad o]) (joinable s) (body_sequence s)).
Proof.
  intros Hcall. simpl.
  unfold bind at 1, at_index, ret at 1. simpl.
  unfold bind, call_unwind_to, call. rewrite Hcall.
  destruct o as [e | r]; [reflexivity |].
  destruct (Status_eqb (status r) Error); [reflexivity |].
  rewrite unwind_loop_exit by reflexivity. reflexivity.
Qed.

(** C2, as the code has it: the loop [for (i = last_stage; i <= 0; --i)] does
    not iterate in reverse.  For [last_stage > 0] the body runs zero times:
    no [unwind_to] is called, the state is untouched and [unwind] returns
    the uninitialised [result].  For [last_stage = 0] the body runs once, on
    [stages[0]]: when that call returns [Error] the loop breaks at [i = 0];
    otherwise [--i] wraps to the largest [size_t], the test [i <= 0] fails
    and the loop is left with no further [stages[i]] access.  [unwind]
    returns the result of that one call (or ends with its exception). *)
Theorem unwind_loop_underflows (fuel : nat) (stages : list Stage)
    (point : BlockNum) (bad : Hash) (last_stage : Z) (s : State) :
  (0 < last_stage ->
     unwind_loop fuel stages point bad last_stage result_init s
       = (Val (result_init, last_stage), s) /\
     unwind stages point bad last_stage s = (Val result_init, s)) /\
  (last_stage = 0 ->
     forall st rest o w,
       stages = st :: rest ->
       stage_unwind_to st point bad (world s) = (o, w) ->
       let s' := mkState w (trace s ++ [EvUnwindTo st point bad o])
                         (joinable s) (body_sequence s) in
       match o with
       | inr r =>
           unwind_loop (S fuel) stages point bad last_stage result_init s
             = (Val (r, if Status_eqb (status r) Error then 0 else SIZE_MAX), s') /\
           unwind stages point bad last_stage s = (Val r, s')
       | inl e =>
           unwind_loop (S fuel) stages point bad last_stage result_init s
             = (Throw e, s') /\
           unwind stages point bad last_stage s = (Throw e, s')
       end).
Proof.
  split.
  - intros Hpos. assert (Hc : (last_stage <=? 0) = false) by (apply Z.leb_gt; lia).
    split.
    + rewrite unwind_loop_exit by exact Hc. reflexivity.
    + unfold unwind, bind. rewrite unwind_loop_exit by exact Hc. reflexivity.
  - intros -> st rest o w -> Hcall s'.
    unfold unwind, bind. change (Z.to_nat 0) with O.
    rewrite !(unwind_loop_zero _ _ _ _ _ _ _ _ _ Hcall).
    destruct o as [e | r]; split; reflexivity.
Qed.

(** [unwind] never indexes out of bounds on a non-empty array and never
    runs out of fuel. *)
Lemma unwind_total (stages : list Stage) point bad last_stage s :
  stages <> [] -> 0 <= last_stage ->
  (exists r, fst (unwind stages point bad last_stage s) = Val r) \/
  (exists e, fst (unwind stages point bad last_stage s) = Throw e).
Proof.
  intros Hne Hpos. unfold unwind, bind.
  destruct (Z.eq_dec last_stage 0) as [-> | Hn].
  - destruct stages as [| st rest]; [contradiction |].
    destruct (stage_unwind_to st point bad (world s)) as [o w] eqn:Hcall.
    change (Z.to_nat 0) with O.
    rewrite (unwind_loop_zero _ _ _ _ _ _ _ _ _ Hcall).
    destruct o as [e | r].
    + right. exists e. reflexivity.
    + left. exists r. reflexivity.
  - rewrite unwind_loop_exit by (apply Z.leb_gt; lia).
    left. exists result_init. reflexivity.
Qed.

(** *** The stage loop *)

Lemma stage_loop_step fuel stages first_sync s :
  stage_loop (S fuel) stages first_sync s
  = match pass stages first_sync s with
    | (Val r, s1) =>
        if Status_eqb (status r) Error then (Val r, s1)
        else stage_loop fuel stages false s1
    | (Throw e, s1) => (Throw e, s1)
    | (Undef, s1) => (Undef, s1)
    | (Diverge, s1) => (Diverge, s1)
    end.
Proof.
  simpl. unfold bind.
  destruct (pass stages first_sync s) as [[r | e | |] s1]; try reflexivity.
  destruct (Status_eqb (status r) Error); reflexivity.
Qed.

Lemma stage_loop_exit_Error : forall fuel stages first_sync s r s',
  stage_loop fuel stages first_sync s = (Val r, s') -> status r = Error.
Proof.
  induction fuel as [| fuel IH]; intros stages first_sync s r s' H.
  - discriminate.
  - rewrite stage_loop_step in H.
    destruct (pass stages first_sync s) as [[r1 | e | |] s1]; try discriminate.
    destruct (Status_eqb (status r1) Error) eqn:Hst.
    + inversion H; subst. apply Status_eqb_eq. exact Hst.
    + eapply IH. exact H.
Qed.

(** A forward pass in which every stage called returned [Done] yields
    [Done] and is not followed by an unwind pass. *)
Lemma pass_all_Done stages first_sync s r k s1 evs :
  1 <= Z.of_nat (length stages) <= SIZE_MAX ->
  forward stages first_sync s = (Val (r, k), s1) ->
  trace s1 = trace s ++ evs ->
  Forall returned_Done evs ->
  status r = Done /\ pass stages first_sync s = (Val r, s1).
Proof.
  intros HN Hfwd Htr Hall.
  destruct (forward_last_event _ _ _ _ _ HN Hfwd) as (evs' & st & o & Htr' & Ho).
  rewrite Htr in Htr'. apply app_inv_head in Htr'. subst evs.
  apply Forall_app in Hall. destruct Hall as [_ Hlast].
  inversion Hlast as [| ev l Hev _]; subst. simpl in Hev.
  destruct o as [e | r']; [contradiction |].
  destruct Ho as [k' Hout]. inversion Hout; subst.
  split; [exact Hev |].
  unfold pass, bind, unwind_if_needed. rewrite Hfwd. rewrite Hev. reflexivity.
Qed.

(** C4: the stage loop repeats passes and ends exactly when a pass ends with
    status [Error].  (1) A pass is a forward pass, followed by an unwind pass
    exactly when the forward status is [UnwindNeeded]; (2) whatever the loop
    returns has status [Error]; (3) when a pass ends with [Error] the loop
    ends with its result, and when it ends with another status the loop goes
    on with a further iteration, [first_sync] being [false]; (4) in
    particular after a pass in which every stage returned [Done] the loop
    goes on. *)
Theorem stage_loop_ends_exactly_on_Error (fuel : nat) (stages : list Stage)
    (first_sync : bool) (s : State) :
  (forall r k s1,
      forward stages first_sync s = (Val (r, k), s1) ->
      (status r <> UnwindNeeded -> pass stages first_sync s = (Val r, s1)) /\
      (status r = UnwindNeeded ->
         forall point bad,
           unwind_point r = Some point -> bad_block r = Some bad ->
           pass stages first_sync s = unwind stages point bad k s1)) /\
  (forall r s',
      stage_loop fuel stages first_sync s = (Val r, s') -> status r = Error) /\
  (forall r s1,
      pass stages first_sync s = (Val r, s1) ->
      (status r = Error ->
         stage_loop (S fuel) stages first_sync s = (Val r, s1)) /\
      (status r <> Error ->
         stage_loop (S fuel) stages first_sync s = stage_loop fuel stages false s1)) /\
  (forall r k s1 evs,
      1 <= Z.of_nat (length stages) <= SIZE_MAX ->
      forward stages first_sync s = (Val (r, k), s1) ->
      trace s1 = trace s ++ evs ->
      Forall returned_Done evs ->
      stage_loop (S fuel) stages first_sync s = stage_loop fuel stages false s1).
Proof.
  split; [| split; [| split]].
  - intros r k s1 Hfwd. unfold pass, bind, unwind_if_needed. rewrite Hfwd.
    split; intros Hst.
    + apply Status_eqb_neq in Hst. rewrite Hst. reflexivity.
    + apply Status_eqb_eq in Hst. rewrite Hst.
      intros point bad -> ->. reflexivity.
  - intros r s'. apply stage_loop_exit_Error.
  - intros r s1 Hpass. rewrite stage_loop_step, Hpass. split; intros Hst.
    + apply Status_eqb_eq in Hst. rewrite Hst. reflexivity.
    + apply Status_eqb_neq in Hst. rewrite Hst. reflexivity.
  - intros r k s1 evs HN Hfwd Htr Hall.
    destruct (pass_all_Done _ _ _ _ _ _ _ HN Hfwd Htr Hall) as [HDone Hpass].
    rewrite stage_loop_step, Hpass, HDone. reflexivity.
Qed.

(** More fuel does not change what the loop yields once it has ended. *)
Lemma stage_loop_fuel_mono : forall fuel stages first_sync s out s',
  stage_loop fuel stages first_sync s = (out, s') -> out <> Diverge ->
  forall fuel', (fuel <= fuel')%nat ->
  stage_loop fuel' stages first_sync s = (out, s').
Proof.
  induction fuel as [| fuel IH]; intros stages first_sync s out s' H Hout fuel' Hle.
  - inversion H; subst. contradiction.
  - destruct fuel' as [| fuel']; [lia |].
    rewrite stage_loop_step in *.
    destruct (pass stages first_sync s) as [[r | e | |] s1]; try exact H.
    destruct (Status_eqb (status r) Error); [exact H |].
    apply (IH _ _ _ _ _ H Hout). lia.
Qed.

(** When every stage returns [Done] from [forward] whatever the world, the
    forward pass yields [Done]. *)
Lemma keeps_forward_Done stages first_sync :
  (forall st fs w, exists r, fst (stage_forward st fs w) = inr r /\ status r = Done) ->
  keeps returned_Done (forward stages first_sync).
Proof.
  intros HDone. unfold forward.
  generalize (length stages) at 1. intros fuel.
  generalize 0 result_init.
  induction fuel as [| fuel IH]; intros i result; simpl;
    destruct (i <? Z.of_nat (length stages)); try apply keeps_ret.
  - apply keeps_diverge.
  - apply keeps_bind; [apply keeps_at_index |]. intros st.
    apply keeps_bind.
    + apply keeps_call. intros w.
      destruct (HDone st first_sync w) as (r & Hr & Hst). simpl. rewrite Hr. exact Hst.
    + intros r. destruct (Status_eqb (status r) UnwindNeeded); [apply keeps_ret | apply IH].
Qed.

(** Stages that always return [Done] keep the loop going for ever: no
    amount of fuel lets it end. *)
Lemma stage_loop_never_ends_on_Done stages :
  1 <= Z.of_nat (length stages) <= SIZE_MAX ->
  (forall st fs w, exists r, fst (stage_forward st fs w) = inr r /\ status r = Done) ->
  forall fuel first_sync s, fst (stage_loop fuel stages first_sync s) = Diverge.
Proof.
  intros HN HDone. induction fuel as [| fuel IH]; intros first_sync s;
    [reflexivity |].
  destruct (forward stages first_sync s) as [out s1] eqn:Hfwd.
  destruct (keeps_forward_Done stages first_sync HDone s) as (_ & _ & evs & Htr & Hall).
  rewrite Hfwd in Htr. simpl in Htr.
  destruct (forward_last_event _ _ _ _ _ HN Hfwd) as (evs' & st & o & Htr' & Ho).
  assert (Hlast : returned_Done (EvForward st first_sync o)).
  { rewrite Htr in Htr'. apply app_inv_head in Htr'. subst evs.
    apply Forall_app in Hall. destruct Hall as [_ Hlast].
    inversion Hlast; assumption. }
  destruct o as [e | r]; [contradiction |].
  destruct Ho as [k ->].
  destruct (pass_all_Done _ _ _ _ _ _ _ HN Hfwd Htr Hall) as [HD Hpass].
  rewrite stage_loop_step, Hpass, HD. simpl. apply IH.
Qed.

Lemma bind_assoc {A B C} (c : M A) (k1 : A -> M B) (k2 : B -> M C) s :
  bind (bind c k1) k2 s = bind c (fun a => bind (k1 a) k2) s.
Proof. unfold bind. destruct (c s) as [[a | e | |] s1]; reflexivity. Qed.

(** A computation that starts with a call: its event comes first. *)
Lemma call_first_event {A B} (Q : Event -> Prop)
    (f : World -> (Exception + A) * World) ev (k : A -> M B) s :
  (forall a, keeps Q (k a)) ->
  exists o evs,
    trace (snd (bind (call f ev) k s)) = trace s ++ ev o :: evs /\ Forall Q evs.
Proof.
  intros Hk. unfold bind, call.
  destruct (f (world s)) as [[e | a] w].
  - exists (inl e), []. split; [reflexivity | constructor].
  - exists (inr a).
    destruct (Hk a (mkState w (trace s ++ [ev (inr a)]) (joinable s) (body_sequence s)))
      as (_ & _ & evs & Htr & Hall).
    exists evs. split; [| exact Hall].
    rewrite Htr. simpl. rewrite <- app_assoc. reflexivity.
Qed.

(** An iteration starts with [stages[0]->forward(first_sync)]; its other
    events are [forward] calls with the same flag and [unwind_to] calls. *)
Lemma pass_first_event st rest first_sync s :
  exists o evs,
    trace (snd (pass (st :: rest) first_sync s))
      = trace s ++ EvForward st first_sync o :: evs /\
    Forall (pass_with first_sync) evs.
Proof.
  unfold pass, forward. simpl length.
  rewrite forward_loop_step by (apply Z.ltb_lt; simpl length; lia).
  change (at_index (st :: rest) 0) with (ret st).
  change (bind (ret st) ?k) with (k st).
  cbv beta. rewrite bind_assoc. unfold call_forward.
  apply call_first_event. intros r. apply keeps_bind.
  - destruct (Status_eqb (status r) UnwindNeeded); [apply keeps_ret |].
    eapply keeps_weaken; [apply pass_with_forward | apply keeps_forward_loop].
  - intros [r2 k]. apply keeps_unwind_if_needed.
Qed.

(** C8: the loop of [main] gives [first_sync = true] to [forward] on its
    first iteration only.  The first iteration starts with
    [header_stage.forward(true)] and all its [forward] calls get [true];
    every event of the later iterations, whether or not an unwind came
    before, is an [unwind_to] or a [forward] with [first_sync = false]. *)
Theorem first_sync_only_on_first_iteration (fuel : nat) (s : State) :
  let stages := [header_stage; body_stage] in
  let s1 := snd (pass stages true s) in
  let s' := snd (main_stage_loop (S fuel) s) in
  exists o evs1 evs2,
    trace s1 = trace s ++ EvForward header_stage true o :: evs1 /\
    Forall (pass_with true) evs1 /\
    trace s' = trace s1 ++ evs2 /\
    Forall (pass_with false) evs2.
Proof.
  intros stages s1 s'.
  destruct (pass_first_event header_stage [body_stage] true s)
    as (o & evs1 & Htr1 & Hall1).
  exists o, evs1.
  assert (H2 : exists evs2, trace s' = trace s1 ++ evs2 /\ Forall (pass_with false) evs2).
  { subst s' s1. unfold main_stage_loop. rewrite stage_loop_step. fold stages.
    destruct (pass stages true s) as [[r | e | |] s1]; simpl;
      try (exists []; rewrite app_nil_r; split; [reflexivity | constructor]).
    destruct (Status_eqb (status r) Error).
    - exists []. rewrite app_nil_r. split; [reflexivity | constructor].
    - destruct (keeps_stage_loop fuel stages s1) as (_ & _ & evs2 & Htr2 & Hall2).
      exists evs2. split; assumption. }
  destruct H2 as (evs2 & Htr2 & Hall2).
  exists evs2. repeat split; assumption.
Qed.


(** *** [main]: configuration *)


(** What [configure] leaves when the command line parses: the two statics
    bound to an option hold the option's value or their default, the two
    durations hold 30 s and 1000 ms. *)
Lemma configure_val argv s ns s1 :
  configure argv s = (Val ns, s1) ->
  exists cl w,
    parse_silkworm_command_line argv (mkNodeSettings "127.0.0.1:9091" None) (world s)
      = (inr (cl, ns), w) /\
    s1 = mkState w
           (trace s ++
            [EvParseCommandLine;
             EvLog "--max_blocks_per_req" (parsed (max_blocks_per_req cl) 128);
             EvLog "--max_requests_per_peer" (parsed (max_requests_per_peer cl) 4);
             EvLog "--request_deadline_s" (parsed (request_deadline_s cl) 30);
             EvLog "--no_peer_delay_ms" (parsed (no_peer_delay_ms cl) 1000)])
           (joinable s)
           (mkTunables (parsed (max_blocks_per_req cl) 128)
                       (parsed (max_requests_per_peer cl) 4) 30 1000).
Proof.
  unfold configure, bind, set_kMaxBlocksPerMessage, set_kPerPeerMaxOutstandingRequests,
    set_kRequestDeadline, set_kNoPeerDelay, set_tunables, get_tunables, call, emit, ret.
  simpl.
  destruct (parse_silkworm_command_line argv _ (world s)) as [[e | [cl ns']] w];
    simpl; intros H; inversion H; subst.
  exists cl, w. split; [reflexivity |].
  repeat rewrite <- app_assoc. reflexivity.
Qed.

Lemma configure_throw argv s e s1 :
  configure argv s = (Throw e, s1) -> joinable s1 = joinable s.
Proof.
  unfold configure, bind, set_kMaxBlocksPerMessage, set_kPerPeerMaxOutstandingRequests,
    set_kRequestDeadline, set_kNoPeerDelay, set_tunables, get_tunables, call, emit, ret.
  simpl.
  destruct (parse_silkworm_command_line argv _ (world s)) as [[e' | [cl ns']] w];
    simpl; intros H; inversion H; subst; reflexivity.
Qed.

Lemma steady_bind {A B} (c : M A) (k : A -> M B) :
  steady c -> (forall a, steady (k a)) -> steady (bind c k).
Proof.
  intros Hc Hk s. unfold bind. specialize (Hc s).
  destruct (c s) as [[a | e | |] s1]; simpl in *; try assumption.
  rewrite Hk. exact Hc.
Qed.

Lemma steady_keeps {A} Q (c : M A) : keeps Q c -> steady c.
Proof. intros H s. destruct (H s) as (_ & B & _). exact B. Qed.

Lemma steady_call {A} (f : World -> (Exception + A) * World) ev : steady (call f ev).
Proof.
  apply (steady_keeps (fun _ => True)). apply keeps_call. intros; exact I.
Qed.

Lemma steady_spawn t : steady (spawn t).
Proof. intros s. reflexivity. Qed.

Lemma steady_join t : steady (join t).
Proof.
  intros s. unfold join. destruct (existsb (Thread_eqb t) (joinable s)); reflexivity.
Qed.

Lemma steady_select_chain_identity ns : steady (select_chain_identity ns).
Proof.
  intros s. unfold select_chain_identity, bind, deref.
  destruct (chain_config ns) as [cfg |]; simpl; [| reflexivity].
  destruct (chain_id cfg =? kMainnet_chain_id); [reflexivity |].
  destruct (chain_id cfg =? kRopsten_chain_id); [reflexivity |].
  destruct (chain_id cfg =? kSepolia_chain_id); reflexivity.
Qed.

Lemma steady_connect ns : steady (connect ns).
Proof.
  unfold connect.
  apply steady_bind; [apply steady_call |]. intros ns'.
  apply steady_bind; [apply steady_select_chain_identity |]. intros ci.
  apply steady_bind; [apply steady_call |]. intros _.
  apply steady_bind; [apply steady_call |]. intros [[hh td] hgt].
  apply steady_bind; [apply steady_call |]. intros _.
  apply steady_bind; [apply steady_call |]. intros _.
  apply steady_bind; [apply steady_call |]. intros _.
  apply steady_bind; [apply steady_spawn |]. intros _.
  apply steady_bind; [apply steady_spawn |]. intros _.
  apply steady_bind; [apply steady_call |]. intros _.
  apply steady_spawn.
Qed.

Lemma keeps_main_stage_loop fuel :
  keeps (fun ev => pass_with true ev \/ pass_with false ev) (main_stage_loop fuel).
Proof.
  unfold main_stage_loop. destruct fuel as [| fuel]; [apply keeps_diverge |].
  simpl stage_loop. apply keeps_bind.
  - eapply keeps_weaken; [| apply keeps_pass]. intros ev H. left. exact H.
  - intros r. destruct (negb (Status_eqb (status r) Error)); [| apply keeps_ret].
    eapply keeps_weaken; [| apply keeps_stage_loop]. intros ev H. right. exact H.
Qed.

Lemma steady_shutdown : steady shutdown.
Proof.
  unfold shutdown.
  apply steady_bind; [apply (steady_keeps (fun _ => True)), keeps_emit; exact I |].
  intros _. apply steady_bind; [apply steady_call |]. intros _.
  apply steady_bind; [apply steady_join |]. intros _.
  apply steady_bind; [apply steady_join |]. intros _.
  apply steady_join.
Qed.

Lemma steady_after_configure ns fuel :
  steady (connect ns ;; main_stage_loop fuel ;; shutdown).
Proof.
  apply steady_bind; [apply steady_connect |]. intros _.
  apply steady_bind; [eapply steady_keeps, keeps_main_stage_loop |]. intros _.
  apply steady_shutdown.
Qed.

Lemma main_body_sequence argv fuel s :
  body_sequence (snd (main argv fuel s)) = body_sequence (snd (main_try argv fuel s)).
Proof.
  unfold main. destruct (main_try argv fuel s) as [[u | e | |] s1]; simpl;
    try reflexivity.
  - destruct (no_joinable_thread s1); reflexivity.
  - destruct (no_joinable_thread s1); [destruct e |]; reflexivity.
Qed.

(** C9: when the command line gives none of [--max_blocks_per_req],
    [--max_requests_per_peer], [--request_deadline_s], [--no_peer_delay_ms],
    the tunables of [BodySequence] are 128 blocks per message, 4 outstanding
    requests per peer, a request deadline of 30 s and a no-peer delay of
    1000 ms, once the command line is parsed and for the rest of [main]. *)
Theorem body_sequence_defaults (argv : list string) (fuel : nat) (s : State)
    (cl : CommandLine) (ns : NodeSettings) (w : World) :
  parse_silkworm_command_line argv (mkNodeSettings "127.0.0.1:9091" None) (world s)
    = (inr (cl, ns), w) ->
  max_blocks_per_req cl = None ->
  max_requests_per_peer cl = None ->
  request_deadline_s cl = None ->
  no_peer_delay_ms cl = None ->
  body_sequence (snd (configure argv s)) = mkTunables 128 4 30 1000 /\
  body_sequence (snd (main argv fuel s)) = mkTunables 128 4 30 1000.
Proof.
  intros Hparse H1 H2 H3 H4.
  destruct (configure argv s) as [out s1] eqn:Hc.
  assert (Hs1 : out = Val ns /\ body_sequence s1 = mkTunables 128 4 30 1000).
  { revert Hc. unfold configure, bind, set_kMaxBlocksPerMessage,
      set_kPerPeerMaxOutstandingRequests, set_kRequestDeadline, set_kNoPeerDelay,
      set_tunables, get_tunables, call, emit, ret.
    simpl. rewrite Hparse. simpl. rewrite H1, H2. simpl.
    intros H; inversion H; subst. split; reflexivity. }
  destruct Hs1 as [-> Hb]. split; [exact Hb |].
  rewrite main_body_sequence. unfold main_try, bind at 1. rewrite Hc.
  rewrite steady_after_configure. exact Hb.
Qed.

(** The two durations are assigned (lines 106-107) before the command line
    is parsed (line 111): whatever the command line gives, they keep 30 s
    and 1000 ms. *)
Remark durations_fixed_before_parsing (argv : list string) (s : State) :
  kRequestDeadline (body_sequence (snd (configure argv s))) = 30 /\
  kNoPeerDelay (body_sequence (snd (configure argv s))) = 1000.
Proof.
  unfold configure, bind, set_kMaxBlocksPerMessage, set_kPerPeerMaxOutstandingRequests,
    set_kRequestDeadline, set_kNoPeerDelay, set_tunables, get_tunables, call, emit, ret.
  simpl.
  destruct (parse_silkworm_command_line argv _ (world s)) as [[e | [cl ns']] w];
    simpl; split; reflexivity.
Qed.


(** *** [main]: start-up *)

Lemma connect_unsupported_chain ns s1 ns' w cfg :
  run_preflight_checklist ns (world s1) = (inr ns', w) ->
  chain_config ns' = Some cfg ->
  chain_id cfg <> kMainnet_chain_id ->
  chain_id cfg <> kRopsten_chain_id ->
  chain_id cfg <> kSepolia_chain_id ->
  connect ns s1
  = (Throw (StdException ("Chain id=" ++ to_string (chain_id cfg) ++ " not supported")),
     mkState w (trace s1 ++ [EvPreflight]) (joinable s1) (body_sequence s1)).
Proof.
  intros Hpre Hcfg HM HR HS.
  unfold connect, bind at 1, call. rewrite Hpre.
  unfold bind, select_chain_identity, bind, deref. rewrite Hcfg. simpl.
  apply Z.eqb_neq in HM, HR, HS. rewrite HM, HR, HS. reflexivity.
Qed.

(** C5: when the chain id configured by the command line and the preflight
    checks is not that of mainnet, Ropsten or Sepolia (as for Rinkeby and
    Goerli), [main] throws [std::logic_error], reports it and returns 1;
    nothing has happened but parsing, logging, the preflight checks and the
    report: no database, no sentry connection, no thread, no stage. *)
Theorem unsupported_chain_is_fatal (argv : list string) (fuel : nat) (s : State)
    (ns : NodeSettings) (s1 : State) (ns' : NodeSettings) (w : World)
    (cfg : ChainConfig) :
  joinable s = [] ->
  configure argv s = (Val ns, s1) ->
  run_preflight_checklist ns (world s1) = (inr ns', w) ->
  chain_config ns' = Some cfg ->
  chain_id cfg <> kMainnet_chain_id ->
  chain_id cfg <> kRopsten_chain_id ->
  chain_id cfg <> kSepolia_chain_id ->
  main argv fuel s
  = (ExitCode 1,
     mkState w
       (trace s1 ++
        [EvPreflight;
         EvPrint ("Chain id=" ++ to_string (chain_id cfg) ++ " not supported")])
       [] (body_sequence s1)) /\
  exists evs,
    trace (snd (main argv fuel s)) = trace s ++ evs /\ Forall startup_event evs.
Proof.
  intros Hj Hc Hpre Hcfg HM HR HS.
  assert (Hmain : main argv fuel s
    = (ExitCode 1,
       mkState w
         (trace s1 ++
          [EvPreflight;
           EvPrint ("Chain id=" ++ to_string (chain_id cfg) ++ " not supported")])
         [] (body_sequence s1))).
  { destruct (configure_val _ _ _ _ Hc) as (cl & w1 & _ & Hs1).
    assert (Hj1 : joinable s1 = []) by (rewrite Hs1; exact Hj).
    unfold main, main_try, bind at 1. rewrite Hc.
    unfold bind at 1.
    rewrite (connect_unsupported_chain _ _ _ _ _ Hpre Hcfg HM HR HS).
    unfold no_joinable_thread. simpl. rewrite Hj1.
    rewrite <- app_assoc. reflexivity. }
  split; [exact Hmain |].
  rewrite Hmain. simpl.
  destruct (configure_val _ _ _ _ Hc) as (cl & w1 & _ & Hs1).
  rewrite Hs1. simpl. rewrite <- app_assoc. eexists. split; [reflexivity |].
  repeat constructor.
Qed.

(** *** [main]: exit codes *)


Lemma main_parse_error argv fuel s code s' :
  main_try argv fuel s = (Throw (ParseError code), s') -> joinable s' = [] ->
  main argv fuel s = (ExitCode code, s').
Proof. intros H Hj. unfold main, no_joinable_thread. rewrite H, Hj. reflexivity. Qed.

Lemma main_std_exception argv fuel s what s' :
  main_try argv fuel s = (Throw (StdException what), s') -> joinable s' = [] ->
  fst (main argv fuel s) = ExitCode 1.
Proof. intros H Hj. unfold main, no_joinable_thread. rewrite H, Hj. reflexivity. Qed.

(** An exception that leaves the [try] block while a worker thread is
    joinable ends in [std::terminate], whatever handler would match. *)
Lemma main_exception_with_joinable_threads argv fuel s e s' :
  main_try argv fuel s = (Throw e, s') -> joinable s' <> [] ->
  main argv fuel s = (Terminated, s').
Proof.
  intros H Hj. unfold main, no_joinable_thread. rewrite H.
  destruct (joinable s'); [contradiction | reflexivity].
Qed.

(** *** [main]: shutdown *)






(** *** Further properties of the stage loop *)

Lemma forward_index_range stages first_sync s r k s1 :
  1 <= Z.of_nat (length stages) <= SIZE_MAX ->
  forward stages first_sync s = (Val (r, k), s1) ->
  0 <= k < Z.of_nat (length stages).
Proof.
  intros HN H. unfold forward in H.
  apply (forward_loop_post stages []) in H; [| simpl; lia | lia].
  destruct H as [(Hnil & _) | (rs & st & o & Hnth & _ & _ & Ho)].
  - subst. simpl in HN. lia.
  - destruct o as [e | r']; [discriminate |].
    destruct Ho as [Hout _]. inversion Hout; subst.
    assert (Hlt : (length rs < length stages)%nat)
      by (apply nth_error_Some; rewrite Hnth; discriminate).
    simpl. lia.
Qed.

Lemma keeps_forward_result (P : Result -> Prop) stages first_sync :
  (forall st fs w r, fst (stage_forward st fs w) = inr r -> P r) ->
  keeps (forward_result P) (forward stages first_sync).
Proof.
  intros HP. unfold forward.
  generalize (length stages) at 1. intros fuel.
  generalize 0 result_init.
  induction fuel as [| fuel IH]; intros i result; simpl;
    destruct (i <? Z.of_nat (length stages)); try apply keeps_ret.
  - apply keeps_diverge.
  - apply keeps_bind; [apply keeps_at_index |]. intros st.
    apply keeps_bind.
    + apply keeps_call. intros w. simpl.
      destruct (fst (stage_forward st first_sync w)) as [e | r] eqn:Hr; [exact I |].
      apply (HP _ _ _ _ Hr).
    + intros r. destruct (Status_eqb (status r) UnwindNeeded); [apply keeps_ret | apply IH].
Qed.

(** A forward pass over a non-empty array never ends in undefined behaviour
    nor out of fuel, and what it returns satisfies what every stage result
    satisfies. *)
Lemma forward_outcome (P : Result -> Prop) stages first_sync s :
  1 <= Z.of_nat (length stages) <= SIZE_MAX ->
  (forall st fs w r, fst (stage_forward st fs w) = inr r -> P r) ->
  (exists r k, fst (forward stages first_sync s) = Val (r, k) /\ P r /\
               0 <= k < Z.of_nat (length stages)) \/
  (exists e, fst (forward stages first_sync s) = Throw e).
Proof.
  intros HN HP.
  destruct (forward stages first_sync s) as [out s1] eqn:Hfwd.
  destruct (keeps_forward_result P stages first_sync HP s) as (_ & _ & evs & Htr & Hall).
  rewrite Hfwd in Htr. simpl in Htr.
  destruct (forward_last_event _ _ _ _ _ HN Hfwd) as (evs' & st & o & Htr' & Ho).
  rewrite Htr in Htr'. apply app_inv_head in Htr'. subst evs.
  apply Forall_app in Hall. destruct Hall as [_ Hlast].
  inversion Hlast as [| ev l Hev _]; subst. simpl in Hev.
  destruct o as [e | r].
  - right. exists e. simpl. exact Ho.
  - left. destruct Ho as [k ->]. exists r, k. simpl.
    repeat split; try exact Hev; apply (forward_index_range _ _ _ _ _ _ HN Hfwd).
Qed.

(** X1: the stage loop is free of undefined behaviour, whatever the stages
    do to the world, as long as a stage that returns [UnwindNeeded] from
    [forward] sets both [unwind_point] and [bad_block]: no [stages[i]] is out
    of bounds, in [forward] or in [unwind], and no empty [optional] is
    dereferenced. *)
Theorem stage_loop_no_undefined_behaviour (stages : list Stage) :
  1 <= Z.of_nat (length stages) <= SIZE_MAX ->
  (forall st fs w r,
      fst (stage_forward st fs w) = inr r -> unwind_request_complete r) ->
  forall fuel first_sync s, fst (stage_loop fuel stages first_sync s) <> Undef.
Proof.
  intros HN Hreq. induction fuel as [| fuel IH]; intros first_sync s;
    [discriminate |].
  rewrite stage_loop_step.
  assert (Hpass : fst (pass stages first_sync s) <> Undef).
  { unfold pass, bind.
    destruct (forward_outcome unwind_request_complete stages first_sync s HN Hreq)
      as [(r & k & Hout & Hr & Hk) | (e & Hout)];
      destruct (forward stages first_sync s) as [out s1]; simpl in Hout; subst out;
      [| discriminate].
    unfold unwind_if_needed.
    destruct (Status_eqb (status r) UnwindNeeded) eqn:Hst; [| discriminate].
    apply Status_eqb_eq in Hst. destruct (Hr Hst) as [Hp Hb].
    destruct (unwind_point r) as [point |]; [| contradiction].
    destruct (bad_block r) as [bad |]; [| contradiction].
    unfold deref, bind, ret.
    assert (Hne : stages <> []) by (intros ->; simpl in HN; lia).
    destruct (unwind_total stages point bad k s1 Hne (proj1 Hk))
      as [[r' Hu] | [e Hu]]; rewrite Hu; discriminate. }
  destruct (pass stages first_sync s) as [[r | e | |] s1]; simpl in *;
    try discriminate; try contradiction.
  destruct (Status_eqb (status r) Error); [discriminate | apply IH].
Qed.

Lemma keeps_bind_ret {A B} Q (a : A) (k : A -> M B) :
  keeps Q (k a) -> keeps Q (bind (ret a) k).
Proof. intros H s. exact (H s). Qed.

Lemma keeps_unwind_loop_first fuel st0 rest point bad : forall i result,
  keeps (unwind_only_on st0) (unwind_loop fuel (st0 :: rest) point bad i result).
Proof.
  induction fuel as [| fuel IH]; intros i result; simpl;
    destruct (i <=? 0) eqn:Hi; try apply keeps_ret.
  - apply keeps_diverge.
  - apply Z.leb_le in Hi.
    unfold at_index. replace (Z.to_nat i) with O by lia. simpl.
    apply keeps_bind_ret.
    apply keeps_bind; [apply keeps_call; intros w; reflexivity |]. intros r.
    destruct (Status_eqb (status r) Error); [apply keeps_ret | apply IH].
Qed.

Lemma unwind_only_on_forward st0 first_sync ev :
  forward_with first_sync ev -> unwind_only_on st0 ev.
Proof. destruct ev; simpl; intros H; try contradiction; exact I. Qed.

Lemma keeps_pass_first st0 rest first_sync :
  keeps (unwind_only_on st0) (pass (st0 :: rest) first_sync).
Proof.
  unfold pass. apply keeps_bind.
  - eapply keeps_weaken; [apply unwind_only_on_forward | apply keeps_forward].
  - intros [r last_stage]. unfold unwind_if_needed.
    destruct (Status_eqb (status r) UnwindNeeded); [| apply keeps_ret].
    apply keeps_bind; [apply keeps_deref |]. intros point.
    apply keeps_bind; [apply keeps_deref |]. intros bad.
    unfold unwind. apply keeps_bind; [apply keeps_unwind_loop_first |].
    intros [r' i]. apply keeps_ret.
Qed.

Lemma keeps_stage_loop_first st0 rest : forall fuel first_sync,
  keeps (unwind_only_on st0) (stage_loop fuel (st0 :: rest) first_sync).
Proof.
  induction fuel as [| fuel IH]; intros first_sync; simpl.
  - apply keeps_diverge.
  - apply keeps_bind; [apply keeps_pass_first |]. intros r.
    destruct (negb (Status_eqb (status r) Error)); [apply IH | apply keeps_ret].
Qed.

(** X2: the stage loop calls [unwind_to] on no stage but [stages[0]].  In
    [main], whatever the stages return and however long the loop runs, every
    event of the loop is a [forward] call or an [unwind_to] call on
    [header_stage]: the bodies stage is never unwound. *)
Theorem unwind_to_reaches_first_stage_only (fuel : nat) (s : State) :
  (forall st0 rest first_sync,
      exists evs,
        trace (snd (stage_loop fuel (st0 :: rest) first_sync s)) = trace s ++ evs /\
        Forall (unwind_only_on st0) evs) /\
  exists evs,
    trace (snd (main_stage_loop fuel s)) = trace s ++ evs /\
    Forall (unwind_only_on header_stage) evs.
Proof.
  split.
  - intros st0 rest first_sync.
    destruct (keeps_stage_loop_first st0 rest fuel first_sync s) as (_ & _ & H).
    exact H.
  - unfold main_stage_loop.
    destruct (keeps_stage_loop_first header_stage [body_stage] fuel true s)
      as (_ & _ & H).
    exact H.
Qed.

(** X3: an unwind asked for by any stage but the first is dropped.  When the
    forward pass ends with [UnwindNeeded] at an index [k > 0], the pass calls
    no [unwind_to] and ends with the uninitialised [result] of [unwind]; the
    loop then ends or goes on according to the status found in that
    uninitialised value. *)
Theorem unwind_request_of_later_stage_is_dropped (fuel : nat)
    (stages : list Stage) (first_sync : bool) (s : State)
    (r : Result) (k : Z) (s1 : State) (point : BlockNum) (bad : Hash) :
  forward stages first_sync s = (Val (r, k), s1) ->
  status r = UnwindNeeded ->
  0 < k ->
  unwind_point r = Some point ->
  bad_block r = Some bad ->
  pass stages first_sync s = (Val result_init, s1) /\
  stage_loop (S fuel) stages first_sync s
  = if Status_eqb (status result_init) Error then (Val result_init, s1)
    else stage_loop fuel stages false s1.
Proof.
  intros Hfwd Hst Hk Hp Hb.
  assert (Hpass : pass stages first_sync s = (Val result_init, s1)).
  { unfold pass, bind at 1. rewrite Hfwd. unfold unwind_if_needed.
    apply Status_eqb_eq in Hst. rewrite Hst, Hp, Hb.
    unfold deref, bind at 1, ret at 1. unfold bind at 1, ret at 1.
    unfold unwind, bind.
    rewrite unwind_loop_exit by (apply Z.leb_gt; lia). reflexivity. }
  split; [exact Hpass |].
  rewrite stage_loop_step, Hpass. reflexivity.
Qed.

(** X4: an unwind asked for by the first stage is served on that stage
    alone.  When [stages[0]->forward] returns [UnwindNeeded] with a point and
    a bad block, the pass consists of that call and of
    [stages[0]->unwind_to(point, bad)] on the world it left; no other stage
    is called, and the pass ends with what [unwind_to] returns or throws. *)
Theorem unwind_request_of_first_stage_is_served (st0 : Stage) (rest : list Stage)
    (first_sync : bool) (s : State) (r : Result) (w1 : World)
    (point : BlockNum) (bad : Hash) (o : Exception + Result) (w2 : World) :
  stage_forward st0 first_sync (world s) = (inr r, w1) ->
  status r = UnwindNeeded ->
  unwind_point r = Some point ->
  bad_block r = Some bad ->
  stage_unwind_to st0 point bad w1 = (o, w2) ->
  pass (st0 :: rest) first_sync s
  = (match o with
     | inr r' => Val r'
     | inl e => Throw e
     end,
     mkState w2
       (trace s ++ [EvForward st0 first_sync (inr r); EvUnwindTo st0 point bad o])
       (joinable s) (body_sequence s)).
Proof.
  intros Hfwd Hst Hp Hb Hunw.
  apply Status_eqb_eq in Hst.
  unfold pass, forward. simpl length.
  rewrite forward_loop_step by (apply Z.ltb_lt; simpl length; lia).
  change (at_index (st0 :: rest) 0) with (ret st0).
  change (bind (ret st0) ?k) with (k st0). cbv beta.
  rewrite bind_assoc. unfold call_forward.
  unfold bind at 1, call at 1. rewrite Hfwd.
  rewrite Hst. unfold bind at 1, ret at 1.
  unfold unwind_if_needed. rewrite Hst, Hp, Hb.
  unfold deref, bind at 1, ret at 1. unfold bind at 1, ret at 1.
  unfold unwind, bind at 1. change (Z.to_nat 0) with O.
  erewrite unwind_loop_zero by (simpl; exact Hunw).
  simpl. rewrite <- app_assoc. simpl.
  destruct o as [e | r']; reflexivity.
Qed.

(** *** Further properties of [main] *)

Lemma configure_parsed argv s cl ns w :
  parse_silkworm_command_line argv (mkNodeSettings "127.0.0.1:9091" None) (world s)
    = (inr (cl, ns), w) ->
  configure argv s
  = (Val ns,
     mkState w
       (trace s ++
        [EvParseCommandLine;
         EvLog "--max_blocks_per_req" (parsed (max_blocks_per_req cl) 128);
         EvLog "--max_requests_per_peer" (parsed (max_requests_per_peer cl) 4);
         EvLog "--request_deadline_s" (parsed (request_deadline_s cl) 30);
         EvLog "--no_peer_delay_ms" (parsed (no_peer_delay_ms cl) 1000)])
       (joinable s)
       (mkTunables (parsed (max_blocks_per_req cl) 128)
                   (parsed (max_requests_per_peer cl) 4) 30 1000)).
Proof.
  intros Hparse.
  unfold configure, bind, set_kMaxBlocksPerMessage, set_kPerPeerMaxOutstandingRequests,
    set_kRequestDeadline, set_kNoPeerDelay, set_tunables, get_tunables, call, emit, ret.
  simpl. rewrite Hparse. simpl.
  repeat rewrite <- app_assoc. reflexivity.
Qed.

Lemma configure_failed argv s e w :
  parse_silkworm_command_line argv (mkNodeSettings "127.0.0.1:9091" None) (world s)
    = (inl e, w) ->
  exists t,
    configure argv s
    = (Throw e, mkState w (trace s ++ [EvParseCommandLine]) (joinable s) t).
Proof.
  intros Hparse.
  unfold configure, bind, set_kMaxBlocksPerMessage, set_kPerPeerMaxOutstandingRequests,
    set_kRequestDeadline, set_kNoPeerDelay, set_tunables, get_tunables, call, emit, ret.
  simpl. rewrite Hparse. eexists. reflexivity.
Qed.

Lemma main_try_body_sequence argv fuel s :
  body_sequence (snd (main_try argv fuel s))
  = body_sequence (snd (configure argv s)).
Proof.
  unfold main_try, bind at 1.
  destruct (configure argv s) as [[ns | e | |] s1]; try reflexivity.
  simpl. apply steady_after_configure.
Qed.

(** X5: [--max_blocks_per_req] and [--max_requests_per_peer] take effect.
    When the command line parses, [BodySequence::kMaxBlocksPerMessage] and
    [kPerPeerMaxOutstandingRequests] hold the value given by their option
    (128 and 4 when the option is absent) from then on to the end of
    [main], whatever happens later. *)
Theorem block_options_reach_tunables (argv : list string) (fuel : nat)
    (s : State) (cl : CommandLine) (ns : NodeSettings) (w : World) :
  parse_silkworm_command_line argv (mkNodeSettings "127.0.0.1:9091" None) (world s)
    = (inr (cl, ns), w) ->
  kMaxBlocksPerMessage (body_sequence (snd (main argv fuel s)))
  = parsed (max_blocks_per_req cl) 128 /\
  kPerPeerMaxOutstandingRequests (body_sequence (snd (main argv fuel s)))
  = parsed (max_requests_per_peer cl) 4.
Proof.
  intros Hparse.
  rewrite main_body_sequence, main_try_body_sequence.
  rewrite (configure_parsed _ _ _ _ _ Hparse). simpl. split; reflexivity.
Qed.

(** X6: [--request_deadline_s] and [--no_peer_delay_ms] never take effect.
    [BodySequence::kRequestDeadline] and [kNoPeerDelay] are assigned from the
    option variables at lines 106-107, before the command line is parsed at
    line 111: at the end of [main] they are 30 s and 1000 ms for every
    command line and every parser, while the "BlockExchange parameter" log
    lines show the values given on the command line. *)
Theorem duration_options_never_reach_tunables (argv : list string) (fuel : nat)
    (s : State) :
  kRequestDeadline (body_sequence (snd (main argv fuel s))) = 30 /\
  kNoPeerDelay (body_sequence (snd (main argv fuel s))) = 1000 /\
  (forall cl ns w,
      parse_silkworm_command_line argv (mkNodeSettings "127.0.0.1:9091" None)
        (world s) = (inr (cl, ns), w) ->
      In (EvLog "--request_deadline_s" (parsed (request_deadline_s cl) 30))
         (trace (snd (configure argv s))) /\
      In (EvLog "--no_peer_delay_ms" (parsed (no_peer_delay_ms cl) 1000))
         (trace (snd (configure argv s)))).
Proof.
  rewrite main_body_sequence, main_try_body_sequence.
  destruct (durations_fixed_before_parsing argv s) as [Hd Hn].
  split; [exact Hd |]. split; [exact Hn |].
  intros cl ns w Hparse. rewrite (configure_parsed _ _ _ _ _ Hparse). simpl.
  split; apply in_or_app; right; simpl; tauto.
Qed.

(** X7: a command line that does not parse ends [main] at once.  When the
    parser throws [CLI::ParseError], [main] returns the parser's exit code;
    when it throws another exception, [main] reports it and returns 1.
    Either way nothing but the parsing has happened: the world is as the
    parser left it, and there was no preflight check, no database, no sentry
    connection, no thread.  (Nothing is said of the option variables, which
    the parser may or may not have stored into before it threw.) *)
Theorem command_line_error_ends_main (argv : list string) (fuel : nat)
    (s : State) (e : Exception) (w : World) :
  joinable s = [] ->
  parse_silkworm_command_line argv (mkNodeSettings "127.0.0.1:9091" None) (world s)
    = (inl e, w) ->
  fst (main argv fuel s) = handled_exit e /\
  world (snd (main argv fuel s)) = w /\
  trace (snd (main argv fuel s))
  = trace s ++ [EvParseCommandLine] ++ handled_report e /\
  joinable (snd (main argv fuel s)) = [].
Proof.
  intros Hj Hparse.
  assert (Hmain : exists t,
            main argv fuel s
            = (handled_exit e,
               mkState w (trace s ++ [EvParseCommandLine] ++ handled_report e) [] t)).
  { destruct (configure_failed _ _ _ _ Hparse) as (t & Hc). exists t.
    unfold main, main_try, bind at 1. rewrite Hc.
    unfold no_joinable_thread. simpl. rewrite Hj.
    destruct e as [code | what]; simpl; [reflexivity |].
    rewrite <- app_assoc. reflexivity. }
  destruct Hmain as (t & ->). simpl. repeat split; reflexivity.
Qed.

(** X8: nothing ends the stage loop of [main] but [Error] or an exception.
    With stages that return [Done] from every [forward], the loop is still
    running after any number of iterations, so the [try] block of [main]
    never completes: [block_exchange.stop()] is not called and no thread is
    joined. *)
Theorem main_never_shuts_down_on_Done :
  (forall st fs w, exists r, fst (stage_forward st fs w) = inr r /\ status r = Done) ->
  forall argv fuel s,
    fst (main_stage_loop fuel s) = Diverge /\
    (forall u, fst (main_try argv fuel s) <> Val u) /\
    (forall code, fst (main argv fuel s) = ExitCode code ->
       exists e, fst (main_try argv fuel s) = Throw e).
Proof.
  intros HDone argv fuel s.
  assert (HN : 1 <= Z.of_nat (length [header_stage; body_stage]) <= SIZE_MAX)
    by (unfold SIZE_MAX, size_modulus; simpl; lia).
  assert (Hloop : forall s0, fst (main_stage_loop fuel s0) = Diverge).
  { intros s0. unfold main_stage_loop.
    apply (stage_loop_never_ends_on_Done _ HN HDone). }
  assert (Htry : forall u, fst (main_try argv fuel s) <> Val u).
  { intros u. unfold main_try, bind.
    destruct (configure argv s) as [[ns | e | |] s1]; try discriminate.
    destruct (connect ns s1) as [[[] | e | |] s2]; try discriminate.
    specialize (Hloop s2).
    destruct (main_stage_loop fuel s2) as [[r | e | |] s3]; simpl in Hloop;
      discriminate. }
  split; [apply Hloop |]. split; [exact Htry |].
  intros code. unfold main.
  destruct (main_try argv fuel s) as [[u | e | |] s'] eqn:Hrun; simpl.
  - exfalso. apply (Htry u). reflexivity.
  - intros _. exists e. reflexivity.
  - discriminate.
  - discriminate.
Qed.

(** *** The order of the start-up *)

Lemma chain_identity_cases ns :
  exists out, chain_identity_is ns out /\ out <> Diverge.
Proof.
  unfold chain_identity_is, select_chain_identity, bind, deref, ret, throw, undef.
  destruct (chain_config ns) as [cfg |].
  - destruct (chain_id cfg =? kMainnet_chain_id);
      [eexists; split; [intros s; reflexivity | discriminate] |].
    destruct (chain_id cfg =? kRopsten_chain_id);
      [eexists; split; [intros s; reflexivity | discriminate] |].
    destruct (chain_id cfg =? kSepolia_chain_id);
      eexists; split; try (intros s; reflexivity); discriminate.
  - eexists; split; [intros s; reflexivity | discriminate].
Qed.

(** Whatever the collaborators do, a step up to the handshake fails first,
    or the handshake returns, or the settings have no chain configuration. *)
Lemma startup_cases ns w0 :
  (exists evs e w, startup_failure ns w0 evs e w) \/
  (exists ns' ci hh td w6, hand_shaken ns w0 ns' ci hh td w6) \/
  (exists ns' w1, run_preflight_checklist ns w0 = (inr ns', w1) /\
                  chain_identity_is ns' Undef).
Proof.
  destruct (run_preflight_checklist ns w0) as [[e | ns'] w1] eqn:Hpre.
  { left. do 3 eexists. apply preflight_fails. exact Hpre. }
  destruct (chain_identity_cases ns') as (out & Hout & Hnd).
  destruct out as [ci | e | |].
  2: { left. do 3 eexists. eapply chain_identity_fails; eassumption. }
  2: { right. right. exists ns', w1. split; [reflexivity | exact Hout]. }
  2: { exfalso. apply Hnd. reflexivity. }
  assert (H1 : preflight_passed ns w0 ns' ci w1) by (split; assumption).
  destruct (db_open ns' w1) as [[e | []] w2] eqn:Hdb.
  { left. do 3 eexists. eapply db_open_fails; eassumption. }
  assert (H2 : database_opened ns w0 ns' ci w2) by (exists w1; split; assumption).
  destruct (head_status w2) as [[e | [[hh td] height]] w3] eqn:Hhead.
  { left. do 3 eexists. eapply head_status_fails; eassumption. }
  assert (H3 : head_read ns w0 ns' ci hh td w3)
    by (exists w2, height; split; assumption).
  destruct (sentry_connect (sentry_api_addr ns') w3) as [[e | []] w4] eqn:Hconn.
  { left. do 3 eexists. eapply sentry_connect_fails; eassumption. }
  assert (H4 : sentry_connected ns w0 ns' ci hh td w4)
    by (exists w3; split; assumption).
  destruct (sentry_set_status hh td ci w4) as [[e | []] w5] eqn:Hset.
  { left. do 3 eexists. eapply set_status_fails; eassumption. }
  assert (H5 : status_set ns w0 ns' ci hh td w5)
    by (exists w4; split; assumption).
  destruct (sentry_hand_shake w5) as [[e | []] w6] eqn:Hhs.
  { left. do 3 eexists. eapply hand_shake_fails; eassumption. }
  right. left. exists ns', ci, hh, td, w6, w5. split; assumption.
Qed.

(** One step of [connect]: a call whose outcome is known. *)
Ltac startup_call H :=
  unfold bind at 1, call at 1; simpl world; rewrite H; cbv beta iota.

Ltac startup_select H :=
  unfold bind at 1; rewrite (H _); cbv beta iota.

Ltac startup_done :=
  simpl; rewrite <- ?app_assoc; reflexivity.

Lemma connect_startup_failure ns s1 evs e w :
  startup_failure ns (world s1) evs e w ->
  connect ns s1
  = (Throw e, mkState w (trace s1 ++ evs) (joinable s1) (body_sequence s1)).
Proof.
  intros Hfail. unfold connect.
  destruct Hfail as
    [e w1 Hpre
    | ns' e w1 Hpre Hci
    | ns' ci w1 e w2 (Hpre & Hci) Hdb
    | ns' ci w2 e w3 (w1 & (Hpre & Hci) & Hdb) Hhead
    | ns' ci hh td w3 e w4 (w2 & hgt & (w1 & (Hpre & Hci) & Hdb) & Hhead) Hconn
    | ns' ci hh td w4 e w5
        (w3 & (w2 & hgt & (w1 & (Hpre & Hci) & Hdb) & Hhead) & Hconn) Hset
    | ns' ci hh td w5 e w6
        (w4 & (w3 & (w2 & hgt & (w1 & (Hpre & Hci) & Hdb) & Hhead) & Hconn) & Hset)
        Hhs].
  - startup_call Hpre. startup_done.
  - startup_call Hpre. startup_select Hci. startup_done.
  - startup_call Hpre. startup_select Hci. startup_call Hdb. startup_done.
  - startup_call Hpre. startup_select Hci. startup_call Hdb. startup_call Hhead.
    startup_done.
  - startup_call Hpre. startup_select Hci. startup_call Hdb. startup_call Hhead.
    startup_call Hconn. startup_done.
  - startup_call Hpre. startup_select Hci. startup_call Hdb. startup_call Hhead.
    startup_call Hconn. startup_call Hset. startup_done.
  - startup_call Hpre. startup_select Hci. startup_call Hdb. startup_call Hhead.
    startup_call Hconn. startup_call Hset. startup_call Hhs. startup_done.
Qed.

Lemma connect_without_chain_config ns s1 ns' w1 :
  run_preflight_checklist ns (world s1) = (inr ns', w1) ->
  chain_identity_is ns' Undef ->
  connect ns s1
  = (Undef, mkState w1 (trace s1 ++ [EvPreflight]) (joinable s1) (body_sequence s1)).
Proof.
  intros Hpre Hci. unfold connect.
  startup_call Hpre. startup_select Hci. reflexivity.
Qed.

(** In the model the threads start as soon as the handshake has returned;
    what is left is the constructor of the block exchange. *)
Lemma connect_hand_shaken ns s1 ns' ci hh td w6 :
  hand_shaken ns (world s1) ns' ci hh td w6 ->
  connect ns s1
  = match block_exchange_new ci w6 with
    | (inl e, w7) =>
        (Throw e,
         mkState w7 (trace s1 ++ firstn 9 (startup_sequence (sentry_api_addr ns')))
                 (joinable s1 ++ [message_receiving; stats_receiving])
                 (body_sequence s1))
    | (inr _, w7) =>
        (Val tt,
         mkState w7 (trace s1 ++ startup_sequence (sentry_api_addr ns'))
                 (joinable s1 ++ [message_receiving; stats_receiving;
                                  block_downloading])
                 (body_sequence s1))
    end.
Proof.
  intros (w5 & (w4 & (w3 & (w2 & hgt & (w1 & (Hpre & Hci) & Hdb) & Hhead) & Hconn)
                & Hset) & Hhs).
  unfold connect.
  startup_call Hpre. startup_select Hci. startup_call Hdb. startup_call Hhead.
  startup_call Hconn. startup_call Hset. startup_call Hhs.
  unfold bind at 1, spawn at 1. cbv beta iota.
  unfold bind at 1, spawn at 1. cbv beta iota.
  unfold bind at 1, call at 1. simpl world.
  destruct (block_exchange_new ci w6) as [[e | []] w7]; cbv beta iota.
  - startup_done.
  - unfold spawn. startup_done.
Qed.

(** X9: the start-up stops at the first step that fails, and starts no
    thread before the handshake has returned.  The steps are, in the order
    of the source: preflight checks and chain identity, database, head of
    the chain, sentry connection, [set_status], [hand_shake]; each is called
    on the world left by the one before.  When one of them throws, the
    steps before it having returned, [connect] ends with that exception, in
    the world the failing step left; exactly the steps up to it have been
    made, in order, and the threads are as before.  A thread is started
    only when all six steps returned, and [connect] returns only when all
    six steps returned and the ten steps of lines 133-174 were made, in the
    order of the source. *)
Theorem startup_steps_in_order (ns : NodeSettings) (s1 : State) :
  (forall evs e w,
      startup_failure ns (world s1) evs e w ->
      connect ns s1
      = (Throw e, mkState w (trace s1 ++ evs) (joinable s1) (body_sequence s1))) /\
  (joinable (snd (connect ns s1)) <> joinable s1 ->
   exists ns' ci hh td w6, hand_shaken ns (world s1) ns' ci hh td w6) /\
  (fst (connect ns s1) = Val tt ->
   exists ns' ci hh td w6,
     hand_shaken ns (world s1) ns' ci hh td w6 /\
     trace (snd (connect ns s1))
     = trace s1 ++ startup_sequence (sentry_api_addr ns')).
Proof.
  split; [intros evs e w; apply connect_startup_failure |].
  destruct (startup_cases ns (world s1))
    as [(evs & e & w & Hfail) | [(ns' & ci & hh & td & w6 & Hhs) | (ns' & w1 & Hpre & Hci)]].
  - rewrite (connect_startup_failure _ _ _ _ _ Hfail). simpl.
    split; [intros H; exfalso; apply H; reflexivity | discriminate].
  - split; [intros _; exists ns', ci, hh, td, w6; exact Hhs |].
    rewrite (connect_hand_shaken _ _ _ _ _ _ _ Hhs).
    destruct (block_exchange_new ci w6) as [[e | []] w7] eqn:Hbx; simpl;
      [discriminate |].
    intros _. exists ns', ci, hh, td, w6. split; [exact Hhs | reflexivity].
  - rewrite (connect_without_chain_config _ _ _ _ Hpre Hci). simpl.
    split; [intros H; exfalso; apply H; reflexivity | discriminate].
Qed.

(** *** Exceptions of the start-up *)

(** X10: an exception thrown by a step of the start-up up to the handshake
    (preflight checks, chain identity, database, head of the chain, sentry
    connection, [set_status], [hand_shake]; lines 133-168) is handled by
    [main]: no thread has been started, so [std::terminate] is not called;
    [main] reports the exception and returns 1 (the exit code of the
    exception when it is a [CLI::ParseError]).  After the command line was
    read, nothing has happened but the steps up to the failing one and the
    report; the world is as the failing step left it. *)
Theorem startup_exception_is_handled (argv : list string) (fuel : nat)
    (s : State) (cl : CommandLine) (ns : NodeSettings) (w0 : World)
    (evs : list Event) (e : Exception) (w : World) :
  joinable s = [] ->
  parse_silkworm_command_line argv (mkNodeSettings "127.0.0.1:9091" None) (world s)
    = (inr (cl, ns), w0) ->
  startup_failure ns w0 evs e w ->
  main argv fuel s
  = (handled_exit e,
     mkState w (trace (snd (configure argv s)) ++ evs ++ handled_report e) []
             (body_sequence (snd (configure argv s)))).
Proof.
  intros Hj Hparse Hfail.
  unfold main, main_try, bind at 1.
  rewrite (configure_parsed _ _ _ _ _ Hparse).
  unfold bind at 1.
  rewrite connect_startup_failure with (evs := evs) (e := e) (w := w)
    by exact Hfail.
  unfold no_joinable_thread. simpl. rewrite Hj.
  destruct e as [code | what]; simpl.
  - rewrite app_nil_r. reflexivity.
  - rewrite <- !app_assoc. reflexivity.
Qed.

End Downloader.

(** ** The task completion of the sentry *)

Section SentryTaskFacts.

Variable error_code : Type.
Variable is_operation_canceled : error_code -> bool.

(** C7: a [system_error] whose code is [operation_canceled] is swallowed:
    [rethrow_unless_cancelled] returns, the completion handler goes on to
    set the promise and returns normally.  Any other exception held by the
    pointer leaves [rethrow_unless_cancelled] and the completion handler,
    and the promise is not set. *)
Theorem cancelled_is_normal_termination :
  (forall code,
      is_operation_canceled code = true ->
      rethrow_unless_cancelled error_code is_operation_canceled
        (Some (SystemError code)) = Returns tt /\
      rlpx_server_task_completion error_code is_operation_canceled
        (Some (SystemError code)) false = (Returns tt, true)) /\
  (forall e promise,
      (forall code, e = SystemError code -> is_operation_canceled code = false) ->
      rethrow_unless_cancelled error_code is_operation_canceled (Some e) = Throws e /\
      rlpx_server_task_completion error_code is_operation_canceled (Some e) promise
        = (Throws e, promise)).
Proof.
  split.
  - intros code Hc.
    unfold rlpx_server_task_completion, rethrow_unless_cancelled,
      try_catch_system_error, rethrow_exception.
    rewrite Hc. simpl. split; reflexivity.
  - intros e promise He.
    unfold rlpx_server_task_completion, rethrow_unless_cancelled,
      try_catch_system_error, rethrow_exception.
    destruct e as [code | what]; simpl.
    + rewrite (He code eq_refl). simpl. split; reflexivity.
    + split; reflexivity.
Qed.

End SentryTaskFacts.

(** ** [SentryImpl]: construction, [stop], [join] *)

Section SentryImplFacts.

Variable error_code : Type.
Variable is_operation_canceled : error_code -> bool.
Variable WaitMode : Type.
Variable ContextPool : Type.
Variable new_pool : Z -> ContextPool.
Variable add_context :
  ContextPool -> WaitMode -> TaskException error_code + ContextPool.

Lemma add_contexts_counts (settings : Settings WaitMode) :
  num_contexts WaitMode settings <= SIZE_MAX ->
  forall k fuel i pool,
    0 <= i ->
    i + Z.of_nat k = num_contexts WaitMode settings ->
    (k <= fuel)%nat ->
    add_contexts error_code WaitMode ContextPool add_context fuel settings i pool
    = add_context_times error_code WaitMode ContextPool add_context k
        (wait_mode WaitMode settings) pool.
Proof.
  intros Hmax. induction k as [| k IH]; intros fuel i pool Hi Hsum Hfuel.
  - assert (Hc : (i <? num_contexts WaitMode settings) = false)
      by (apply Z.ltb_ge; lia).
    destruct fuel; simpl; rewrite Hc; reflexivity.
  - destruct fuel as [| fuel]; [lia |].
    assert (Hc : (i <? num_contexts WaitMode settings) = true)
      by (apply Z.ltb_lt; lia).
    simpl. rewrite Hc.
    destruct (add_context pool (wait_mode WaitMode settings)) as [e | pool'];
      [reflexivity |].
    rewrite wrap_small by lia. apply IH; lia.
Qed.

(** X11: the constructor of [SentryImpl] fills the context pool with
    [settings.num_contexts] contexts: its loop calls [add_context] with
    [settings.wait_mode] exactly [num_contexts] times in a row on the pool
    built for [num_contexts] contexts, and ends earlier only when a call
    throws; for [num_contexts = 0] the pool is left as built. *)
Theorem constructor_adds_num_contexts (settings : Settings WaitMode) :
  0 <= num_contexts WaitMode settings <= SIZE_MAX ->
  SentryImpl_context_pool error_code WaitMode ContextPool new_pool add_context settings
  = add_context_times error_code WaitMode ContextPool add_context
      (Z.to_nat (num_contexts WaitMode settings)) (wait_mode WaitMode settings)
      (new_pool (num_contexts WaitMode settings)).
Proof.
  intros Hn. unfold SentryImpl_context_pool.
  apply add_contexts_counts; lia.
Qed.

(** X12: [stop()] followed by the end of the rlpx server task lets [join()]
    return only when the task ended by the cancellation.  From a
    [SentryImpl] whose promise is not satisfied: after [stop()], when the
    task ends with a [system_error] of code [operation_canceled], [join()]
    joins the rpc server, gets past the wait, stops and joins the context
    pool; when the task ends with any other exception, the completion
    handler throws it, the promise stays unsatisfied and [join()] stays in
    the wait after joining the rpc server, the context pool neither stopped
    nor joined. *)
Theorem join_returns_after_cancelled_task (impl : SentryImpl)
    (e : TaskException error_code) :
  rlpx_server_task_ impl = false ->
  future_retrieved impl = false ->
  ((exists code, e = SystemError code /\ is_operation_canceled code = true) ->
     SentryImpl_join error_code
       (snd (SentryImpl_task_completed error_code is_operation_canceled (Some e)
               (SentryImpl_stop impl)))
     = (Finished tt,
        mkSentryImpl true true
          (calls impl ++ [CallRpcShutdown; CallEmitCancellation; CallRpcJoin;
                          CallPoolStop; CallPoolJoin]))) /\
  ((forall code, e = SystemError code -> is_operation_canceled code = false) ->
     fst (SentryImpl_task_completed error_code is_operation_canceled (Some e)
            (SentryImpl_stop impl)) = Throws e /\
     SentryImpl_join error_code
       (snd (SentryImpl_task_completed error_code is_operation_canceled (Some e)
               (SentryImpl_stop impl)))
     = (Pending,
        mkSentryImpl false true
          (calls impl ++ [CallRpcShutdown; CallEmitCancellation; CallRpcJoin]))).
Proof.
  intros Hp Hf. split.
  - intros (code & -> & Hc).
    unfold SentryImpl_join, SentryImpl_task_completed, SentryImpl_stop,
      rlpx_server_task_completion, rethrow_unless_cancelled,
      try_catch_system_error, rethrow_exception, set_value.
    simpl. rewrite Hc, Hp, Hf. simpl.
    rewrite <- !app_assoc. reflexivity.
  - intros He.
    assert (Hthrows :
      rlpx_server_task_completion error_code is_operation_canceled (Some e)
        (rlpx_server_task_ impl) = (Throws e, false)).
    { unfold rlpx_server_task_completion, rethrow_unless_cancelled,
        try_catch_system_error, rethrow_exception.
      rewrite Hp. destruct e as [code | what]; simpl; [| reflexivity].
      rewrite (He code eq_refl). reflexivity. }
    unfold SentryImpl_join, SentryImpl_task_completed, SentryImpl_stop.
    simpl. rewrite Hthrows. simpl. rewrite Hf.
    rewrite <- !app_assoc. split; reflexivity.
Qed.

(** X13: [join()] cannot be called twice.  Whatever the first [join()] did
    (returned, or stayed in the wait), a second [join()] joins the rpc server
    again and then throws [std::future_error] from [get_future()]; it does
    not stop or join the context pool, and leaves the promise as it is. *)
Theorem second_join_throws (impl : SentryImpl) :
  let impl1 := snd (SentryImpl_join error_code impl) in
  SentryImpl_join error_code impl1
  = (Raised (OtherException "Future already retrieved"),
     mkSentryImpl (rlpx_server_task_ impl1) true (calls impl1 ++ [CallRpcJoin])).
Proof.
  unfold SentryImpl_join.
  destruct (future_retrieved impl); [reflexivity |].
  destruct (rlpx_server_task_ impl); reflexivity.
Qed.

End SentryImplFacts.

(** ** Sample runs *)

Definition sample_state : State nat nat :=
  mkState nat nat 0%nat [] [] (mkTunables 0 0 0 0).

(** [main] on the sample world, for mainnet 1, Ropsten 3 and Sepolia
    11155111; the constructor of the block exchange is left open. *)
Definition sample_main
    (block_exchange_new : ChainIdentity -> nat -> (Exception + unit) * nat)
    : list string -> nat -> State nat nat -> Exit * State nat nat :=
  main nat nat sample_forward sample_unwind_to sample_result_init sample_parse
       (fun ns => succeed ns) (fun _ => succeed tt) (succeed ([], 0, 0))
       (fun _ => succeed tt) (fun _ _ _ => succeed tt) (succeed tt)
       block_exchange_new (succeed tt) 0%nat 1%nat 1 3 11155111.

(** C1: with two stages and [last_stage = 1] (the bodies stage asked for the
    unwind) the claim has [unwind_to] called on stage 1, then on stage 0, and
    the result of the last call returned.  The code calls [unwind_to] on no
    stage: the state is untouched, and what is returned is the
    uninitialised [result]. *)
Lemma unwind_skips_touched_stages :
  unwind nat nat sample_unwind_to sample_result_init [0; 1]%nat 100 [] 1 sample_state
  = (Val sample_result_init, sample_state) /\
  trace nat nat
    (snd (unwind nat nat sample_unwind_to sample_result_init [0; 1]%nat 100 [] 1
            sample_state))
  <> [EvUnwindTo nat 1%nat 100 [] (inr (sample_result Done));
      EvUnwindTo nat 0%nat 100 [] (inr (sample_result Done))].
Proof. split; [vm_compute; reflexivity | vm_compute; discriminate]. Qed.

(** C2 on the sample world, for [last_stage = 1] and [last_stage = 0]. *)
Lemma unwind_loop_underflows_witness :
  unwind nat nat sample_unwind_to sample_result_init [0; 1]%nat 100 [] 1 sample_state
  = (Val sample_result_init, sample_state) /\
  unwind nat nat sample_unwind_to sample_result_init [0; 1]%nat 100 [] 0 sample_state
  = (Val (sample_result Done),
     mkState nat nat 1%nat [EvUnwindTo nat 0%nat 100 [] (inr (sample_result Done))]
             [] (mkTunables 0 0 0 0)).
Proof.
  split.
  - destruct (unwind_loop_underflows nat nat sample_unwind_to sample_result_init
                0 [0; 1]%nat 100 [] 1 sample_state) as [Hp _].
    assert (H01 : 0 < 1) by lia.
    exact (proj2 (Hp H01)).
  - destruct (unwind_loop_underflows nat nat sample_unwind_to sample_result_init
                0 [0; 1]%nat 100 [] 0 sample_state) as [_ Hz].
    exact (proj2 (Hz eq_refl 0%nat [1%nat] (inr (sample_result Done)) 1%nat
                     eq_refl eq_refl)).
Defined.

(** C2 as stated fails for [last_stage = 0]: after the one call on
    [stages[0]] the index is the largest [size_t], where indexing the array
    would be undefined, and yet the loop makes no such access: it is left
    normally with the result of the call. *)
Lemma unwind_at_zero_stays_in_bounds :
  unwind_loop nat nat sample_unwind_to 2 [0; 1]%nat 100 [] 0 sample_result_init
    sample_state
  = (Val (sample_result Done, SIZE_MAX),
     mkState nat nat 1%nat [EvUnwindTo nat 0%nat 100 [] (inr (sample_result Done))]
             [] (mkTunables 0 0 0 0)) /\
  fst (unwind nat nat sample_unwind_to sample_result_init [0; 1]%nat 100 [] 0
         sample_state) <> Undef /\
  fst (at_index nat nat [0; 1]%nat SIZE_MAX sample_state) = Undef.
Proof.
  split; [vm_compute; reflexivity |]. split; [vm_compute; discriminate |].
  rewrite at_index_out_of_bounds; [reflexivity |].
  unfold SIZE_MAX, size_modulus. simpl. lia.
Qed.

(** C3 on the sample world: two stages, the second asks for an unwind. *)
Lemma forward_in_array_order_witness :
  1 <= Z.of_nat (length [0; 1]%nat) <= SIZE_MAX /\
  exists rs st o w,
    nth_error [0; 1]%nat (length rs) = Some st /\
    forwarded nat nat sample_forward true (firstn (length rs) [0; 1]%nat)
      (world nat nat sample_state) rs w /\
    sample_forward st true w
    = (o, world nat nat
            (snd (forward nat nat sample_forward sample_result_init [0; 1]%nat true
                    sample_state))) /\
    Forall (fun r => status r <> UnwindNeeded) rs /\
    trace nat nat
      (snd (forward nat nat sample_forward sample_result_init [0; 1]%nat true
              sample_state))
    = trace nat nat sample_state ++
      forward_events nat true (firstn (length rs) [0; 1]%nat) (map inr rs) ++
      [EvForward nat st true o] /\
    joinable nat nat
      (snd (forward nat nat sample_forward sample_result_init [0; 1]%nat true
              sample_state))
    = joinable nat nat sample_state /\
    body_sequence nat nat
      (snd (forward nat nat sample_forward sample_result_init [0; 1]%nat true
              sample_state))
    = body_sequence nat nat sample_state /\
    match o with
    | inr r =>
        fst (forward nat nat sample_forward sample_result_init [0; 1]%nat true
               sample_state) = Val (r, Z.of_nat (length rs)) /\
        (status r = UnwindNeeded \/ S (length rs) = length [0; 1]%nat)
    | inl e =>
        fst (forward nat nat sample_forward sample_result_init [0; 1]%nat true
               sample_state) = Throw e
    end.
Proof.
  assert (HN : 1 <= Z.of_nat (length [0; 1]%nat) <= SIZE_MAX)
    by (unfold SIZE_MAX, size_modulus; simpl; lia).
  split; [exact HN |].
  exact (forward_in_array_order nat nat sample_forward sample_result_init
           [0; 1]%nat true sample_state _ _ HN (surjective_pairing _)).
Defined.

(** C4 on the sample world: a pass of two [Done] is followed by a further
    iteration; a pass that ends with [Error] ends the loop. *)
Lemma stage_loop_ends_exactly_on_Error_witness :
  stage_loop nat nat sample_forward sample_unwind_to sample_result_init 3
    [0; 0]%nat true sample_state
  = stage_loop nat nat sample_forward sample_unwind_to sample_result_init 2
      [0; 0]%nat false
      (snd (forward nat nat sample_forward sample_result_init [0; 0]%nat true
              sample_state)) /\
  fst (stage_loop nat nat sample_forward sample_unwind_to sample_result_init 1
         [0; 1]%nat true (mkState nat nat 12%nat [] [] (mkTunables 0 0 0 0)))
  = Val (sample_result Error).
Proof.
  split.
  - destruct (stage_loop_ends_exactly_on_Error nat nat sample_forward
                sample_unwind_to sample_result_init 2 [0; 0]%nat true sample_state)
      as (_ & _ & _ & H).
    assert (HN : 1 <= Z.of_nat (length [0; 0]%nat) <= SIZE_MAX)
      by (unfold SIZE_MAX, size_modulus; simpl; lia).
    apply (H (sample_result Done) 1 _
             [EvForward nat 0%nat true (inr (sample_result Done));
              EvForward nat 0%nat true (inr (sample_result Done))] HN eq_refl eq_refl).
    repeat constructor.
  - destruct (stage_loop_ends_exactly_on_Error nat nat sample_forward
                sample_unwind_to sample_result_init 0 [0; 1]%nat true
                (mkState nat nat 12%nat [] [] (mkTunables 0 0 0 0)))
      as (_ & _ & H & _).
    rewrite (proj1 (H (sample_result Error) _ eq_refl) eq_refl). reflexivity.
Defined.

(** C5 on the sample world: Goerli (chain id 5). *)
Lemma unsupported_chain_is_fatal_witness :
  sample_chain ["downloader"; "--chain"; "goerli"]%string = 5 /\
  fst (sample_main (fun _ => succeed tt)
         ["downloader"; "--chain"; "goerli"]%string 5 sample_state) = ExitCode 1 /\
  exists evs,
    trace nat nat
      (snd (sample_main (fun _ => succeed tt)
              ["downloader"; "--chain"; "goerli"]%string 5 sample_state))
    = trace nat nat sample_state ++ evs /\
    Forall (startup_event nat) evs.
Proof.
  split; [reflexivity |].
  pose (argv := ["downloader"; "--chain"; "goerli"]%string).
  pose (ns := mkNodeSettings "127.0.0.1:9091" (Some (mkChainConfig 5))).
  pose (s1 := snd (configure nat nat sample_parse argv sample_state)).
  assert (Hj : joinable nat nat sample_state = []) by reflexivity.
  assert (Hc : configure nat nat sample_parse argv sample_state = (Val ns, s1))
    by (vm_compute; reflexivity).
  assert (Hpre : succeed ns (world nat nat s1) = (inr ns, 2%nat))
    by (vm_compute; reflexivity).
  assert (Hcfg : chain_config ns = Some (mkChainConfig 5)) by reflexivity.
  assert (H1 : chain_id (mkChainConfig 5) <> 1) by (simpl; lia).
  assert (H3 : chain_id (mkChainConfig 5) <> 3) by (simpl; lia).
  assert (H11155111 : chain_id (mkChainConfig 5) <> 11155111) by (simpl; lia).
  destruct (unsupported_chain_is_fatal nat nat sample_forward sample_unwind_to
              sample_result_init sample_parse
              (fun ns => succeed ns) (fun _ => succeed tt) (succeed ([], 0, 0))
              (fun _ => succeed tt) (fun _ _ _ => succeed tt) (succeed tt)
              (fun _ => succeed tt) (succeed tt) 0%nat 1%nat 1 3 11155111
              argv 5%nat sample_state ns s1 ns 2%nat (mkChainConfig 5)
              Hj Hc Hpre Hcfg H1 H3 H11155111) as [Hexit Hevs].
  split; [| exact Hevs].
  unfold sample_main. fold argv. rewrite Hexit. reflexivity.
Defined.

(** C6: the constructor of the block exchange throws a [std::exception]
    when the two sentry threads are already running.  The claim has [main]
    return 1; unwinding the [try] block destroys the joinable threads and the
    process ends in [std::terminate] instead. *)
Lemma exception_after_thread_start_terminates :
  fst (sample_main (fun _ => fail_with "MDBX_PANIC") ["downloader"%string] 5
         sample_state) = Terminated /\
  joinable nat nat
    (snd (sample_main (fun _ => fail_with "MDBX_PANIC") ["downloader"%string] 5
            sample_state)) = [message_receiving; stats_receiving].
Proof. split; vm_compute; reflexivity. Qed.

(** The parts of C6 that hold on the sample world: a clean shutdown returns
    0, a command line error returns the parser's code. *)
Example sample_exit_codes :
  fst (sample_main (fun _ => succeed tt) ["downloader"%string] 5 sample_state)
  = ExitCode 0 /\
  fst (sample_main (fun _ => succeed tt) ["downloader"; "--bogus"]%string 5
         sample_state) = ExitCode 109.
Proof. split; vm_compute; reflexivity. Qed.

(** C8 on the sample run: two [forward] calls with [true], then [false]
    only, also after the pass in which the bodies stage asked for an unwind. *)
Example sample_first_sync_flags :
  forward_flags nat
    (trace nat nat
       (snd (sample_main (fun _ => succeed tt) ["downloader"%string] 5 sample_state)))
  = [true; true; false; false; false; false].
Proof. vm_compute. reflexivity. Qed.

(** C9 on the sample world: a command line without options. *)
Lemma body_sequence_defaults_witness :
  body_sequence nat nat
    (snd (sample_main (fun _ => succeed tt) ["downloader"%string] 5 sample_state))
  = mkTunables 128 4 30 1000.
Proof.
  assert (Hparse : sample_parse ["downloader"%string]
                     (mkNodeSettings "127.0.0.1:9091" None)
                     (world nat nat sample_state)
                   = (inr (mkCommandLine None None None None,
                           mkNodeSettings "127.0.0.1:9091" (Some (mkChainConfig 1))),
                      1%nat))
    by (vm_compute; reflexivity).
  exact (proj2 (body_sequence_defaults nat nat sample_forward sample_unwind_to
              sample_result_init sample_parse
              (fun ns => succeed ns) (fun _ => succeed tt) (succeed ([], 0, 0))
              (fun _ => succeed tt) (fun _ _ _ => succeed tt) (succeed tt)
              (fun _ => succeed tt) (succeed tt) 0%nat 1%nat 1 3 11155111
              ["downloader"%string] 5%nat sample_state
              (mkCommandLine None None None None)
              (mkNodeSettings "127.0.0.1:9091" (Some (mkChainConfig 1))) 1%nat
              Hparse eq_refl eq_refl eq_refl eq_refl)).
Defined.


(** C7 with POSIX error numbers: 125 is [ECANCELED], 104 is [ECONNRESET]. *)
Lemma cancelled_is_normal_termination_witness :
  rlpx_server_task_completion Z (Z.eqb 125) (Some (SystemError 125)) false
  = (Returns tt, true) /\
  rlpx_server_task_completion Z (Z.eqb 125) (Some (SystemError 104)) false
  = (Throws (SystemError 104), false) /\
  rlpx_server_task_completion Z (Z.eqb 125) (Some (OtherException "bad_alloc")) false
  = (Throws (OtherException "bad_alloc"), false).
Proof.
  destruct (cancelled_is_normal_termination Z (Z.eqb 125)) as [Hc Ho].
  split; [exact (proj2 (Hc 125 eq_refl)) |].
  split.
  - apply Ho. intros code H. inversion H. reflexivity.
  - apply Ho. intros code H. discriminate H.
Defined.

(** ** Sample runs of the further properties *)

(** [main] on the sample world with a command line that gives the four
    options. *)
Definition sample_main_options
    : list string -> nat -> State nat nat -> Exit * State nat nat :=
  main nat nat sample_forward sample_unwind_to sample_result_init
       sample_parse_options
       (fun ns => succeed ns) (fun _ => succeed tt) (succeed ([], 0, 0))
       (fun _ => succeed tt) (fun _ _ _ => succeed tt) (succeed tt)
       (fun _ => succeed tt) (succeed tt) 0%nat 1%nat 1 3 11155111.

(** X1 on the sample world: its stages set the point and the bad block. *)
Lemma stage_loop_no_undefined_behaviour_witness :
  1 <= Z.of_nat (length [0; 1]%nat) <= SIZE_MAX /\
  fst (stage_loop nat nat sample_forward sample_unwind_to sample_result_init 5
         [0; 1]%nat true sample_state) <> Undef.
Proof.
  assert (HN : 1 <= Z.of_nat (length [0; 1]%nat) <= SIZE_MAX)
    by (unfold SIZE_MAX, size_modulus; simpl; lia).
  split; [exact HN |].
  apply (stage_loop_no_undefined_behaviour nat nat sample_forward sample_unwind_to
           sample_result_init [0; 1]%nat HN).
  intros st fs w r H _. unfold sample_forward in H. simpl in H.
  injection H as <-.
  destruct st; [| destruct (w <? 12)%nat]; simpl; split; discriminate.
Defined.

(** X3 on the sample world: the bodies stage (index 1) asks for the unwind. *)
Lemma unwind_request_of_later_stage_is_dropped_witness :
  pass nat nat sample_forward sample_unwind_to sample_result_init [0; 1]%nat true
    sample_state
  = (Val sample_result_init,
     snd (forward nat nat sample_forward sample_result_init [0; 1]%nat true
            sample_state)) /\
  stage_loop nat nat sample_forward sample_unwind_to sample_result_init 3
    [0; 1]%nat true sample_state
  = stage_loop nat nat sample_forward sample_unwind_to sample_result_init 2
      [0; 1]%nat false
      (snd (forward nat nat sample_forward sample_result_init [0; 1]%nat true
              sample_state)).
Proof.
  pose (s1 := snd (forward nat nat sample_forward sample_result_init [0; 1]%nat
                     true sample_state)).
  assert (Hfwd : forward nat nat sample_forward sample_result_init [0; 1]%nat true
                   sample_state = (Val (sample_result UnwindNeeded, 1), s1))
    by (vm_compute; reflexivity).
  assert (H01 : 0 < 1) by lia.
  destruct (unwind_request_of_later_stage_is_dropped nat nat sample_forward
              sample_unwind_to sample_result_init 2 [0; 1]%nat true sample_state
              (sample_result UnwindNeeded) 1 s1 100 [] Hfwd eq_refl H01
              eq_refl eq_refl) as [Hpass Hloop].
  split; [exact Hpass | exact Hloop].
Defined.

(** X4 on the sample world, the bodies stage first in the array. *)
Lemma unwind_request_of_first_stage_is_served_witness :
  pass nat nat sample_forward sample_unwind_to sample_result_init [1; 0]%nat true
    sample_state
  = (Val (sample_result Done),
     mkState nat nat 2%nat
       [EvForward nat 1%nat true (inr (sample_result UnwindNeeded));
        EvUnwindTo nat 1%nat 100 [] (inr (sample_result Done))]
       [] (mkTunables 0 0 0 0)).
Proof.
  exact (unwind_request_of_first_stage_is_served nat nat sample_forward
           sample_unwind_to sample_result_init 1%nat [0%nat] true sample_state
           (sample_result UnwindNeeded) 1%nat 100 [] (inr (sample_result Done))
           2%nat eq_refl eq_refl eq_refl eq_refl eq_refl).
Defined.

(** X5 on the sample world: 64 blocks per request, 8 requests per peer. *)
Lemma block_options_reach_tunables_witness :
  kMaxBlocksPerMessage
    (body_sequence nat nat
       (snd (sample_main_options ["downloader"%string] 5 sample_state))) = 64 /\
  kPerPeerMaxOutstandingRequests
    (body_sequence nat nat
       (snd (sample_main_options ["downloader"%string] 5 sample_state))) = 8.
Proof.
  assert (Hparse : sample_parse_options ["downloader"%string]
                     (mkNodeSettings "127.0.0.1:9091" None)
                     (world nat nat sample_state)
                   = (inr (mkCommandLine (Some 64) (Some 8) (Some 10) (Some 500),
                           mkNodeSettings "127.0.0.1:9091" (Some (mkChainConfig 1))),
                      1%nat))
    by (vm_compute; reflexivity).
  exact (block_options_reach_tunables nat nat sample_forward sample_unwind_to
           sample_result_init sample_parse_options
           (fun ns => succeed ns) (fun _ => succeed tt) (succeed ([], 0, 0))
           (fun _ => succeed tt) (fun _ _ _ => succeed tt) (succeed tt)
           (fun _ => succeed tt) (succeed tt) 0%nat 1%nat 1 3 11155111
           ["downloader"%string] 5%nat sample_state _ _ _ Hparse).
Defined.

(** X6 on the sample world: a deadline of 10 s and a delay of 500 ms are
    asked for and logged, 30 s and 1000 ms stay. *)
Lemma duration_options_never_reach_tunables_witness :
  kRequestDeadline
    (body_sequence nat nat
       (snd (sample_main_options ["downloader"%string] 5 sample_state))) = 30 /\
  kNoPeerDelay
    (body_sequence nat nat
       (snd (sample_main_options ["downloader"%string] 5 sample_state))) = 1000 /\
  In (EvLog nat "--request_deadline_s" 10)
     (trace nat nat
        (snd (configure nat nat sample_parse_options ["downloader"%string]
                sample_state))) /\
  In (EvLog nat "--no_peer_delay_ms" 500)
     (trace nat nat
        (snd (configure nat nat sample_parse_options ["downloader"%string]
                sample_state))).
Proof.
  assert (Hparse : sample_parse_options ["downloader"%string]
                     (mkNodeSettings "127.0.0.1:9091" None)
                     (world nat nat sample_state)
                   = (inr (mkCommandLine (Some 64) (Some 8) (Some 10) (Some 500),
                           mkNodeSettings "127.0.0.1:9091" (Some (mkChainConfig 1))),
                      1%nat))
    by (vm_compute; reflexivity).
  destruct (duration_options_never_reach_tunables nat nat sample_forward
              sample_unwind_to sample_result_init sample_parse_options
              (fun ns => succeed ns) (fun _ => succeed tt) (succeed ([], 0, 0))
              (fun _ => succeed tt) (fun _ _ _ => succeed tt) (succeed tt)
              (fun _ => succeed tt) (succeed tt) 0%nat 1%nat 1 3 11155111
              ["downloader"%string] 5%nat sample_state) as (Hd & Hn & Hlog).
  split; [exact Hd |]. split; [exact Hn |].
  exact (Hlog _ _ _ Hparse).
Defined.

(** X7 on the sample world: [--bogus] is refused with code 109. *)
Lemma command_line_error_ends_main_witness :
  fst (sample_main (fun _ => succeed tt) ["downloader"; "--bogus"]%string 5
         sample_state) = ExitCode 109 /\
  world nat nat
    (snd (sample_main (fun _ => succeed tt) ["downloader"; "--bogus"]%string 5
            sample_state)) = 1%nat /\
  trace nat nat
    (snd (sample_main (fun _ => succeed tt) ["downloader"; "--bogus"]%string 5
            sample_state)) = [EvParseCommandLine nat] /\
  joinable nat nat
    (snd (sample_main (fun _ => succeed tt) ["downloader"; "--bogus"]%string 5
            sample_state)) = [].
Proof.
  assert (Hj : joinable nat nat sample_state = []) by reflexivity.
  assert (Hparse : sample_parse ["downloader"; "--bogus"]%string
                     (mkNodeSettings "127.0.0.1:9091" None)
                     (world nat nat sample_state)
                   = (inl (ParseError 109), 1%nat))
    by (vm_compute; reflexivity).
  exact (command_line_error_ends_main nat nat sample_forward sample_unwind_to
           sample_result_init sample_parse
           (fun ns => succeed ns) (fun _ => succeed tt) (succeed ([], 0, 0))
           (fun _ => succeed tt) (fun _ _ _ => succeed tt) (succeed tt)
           (fun _ => succeed tt) (succeed tt) 0%nat 1%nat 1 3 11155111
           ["downloader"; "--bogus"]%string 5%nat sample_state _ _ Hj Hparse).
Defined.

(** X8 with stages that are always [Done]: fifty iterations do not end the
    loop. *)
Lemma main_never_shuts_down_on_Done_witness :
  fst (main_stage_loop nat nat sample_always_done sample_unwind_to
         sample_result_init 0%nat 1%nat 50 sample_state) = Diverge.
Proof.
  assert (HDone : forall (st : nat) (fs : bool) (w : nat),
            exists r, fst (sample_always_done st fs w) = inr r /\ status r = Done).
  { intros st fs w. exists (sample_result Done). split; reflexivity. }
  exact (proj1 (main_never_shuts_down_on_Done nat nat sample_always_done
                  sample_unwind_to sample_result_init sample_parse
                  (fun ns => succeed ns) (fun _ => succeed tt) (succeed ([], 0, 0))
                  (fun _ => succeed tt) (fun _ _ _ => succeed tt) (succeed tt)
                  (fun _ => succeed tt) (succeed tt) 0%nat 1%nat 1 3 11155111
                  HDone ["downloader"%string] 50%nat sample_state)).
Defined.

(** X9 on the sample world, with a sentry that refuses the handshake: the
    six steps up to it are made, and no thread is started. *)
Lemma startup_steps_in_order_witness :
  connect nat nat (fun ns => succeed ns) (fun _ => succeed tt) (succeed ([], 0, 0))
    (fun _ => succeed tt) (fun _ _ _ => succeed tt) (fail_with "handshake refused")
    (fun _ => succeed tt) 1 3 11155111
    (mkNodeSettings "127.0.0.1:9091" (Some (mkChainConfig 1))) sample_state
  = (Throw (StdException "handshake refused"),
     mkState nat nat 6%nat
       [EvPreflight nat; EvOpenDb nat; EvReadHead nat;
        EvSentryConnect nat "127.0.0.1:9091"; EvSentrySetStatus nat;
        EvSentryHandShake nat]
       [] (mkTunables 0 0 0 0)).
Proof.
  assert (Hfail :
    startup_failure nat nat (fun ns => succeed ns) (fun _ => succeed tt)
      (succeed ([], 0, 0)) (fun _ => succeed tt) (fun _ _ _ => succeed tt)
      (fail_with "handshake refused") 1 3 11155111
      (mkNodeSettings "127.0.0.1:9091" (Some (mkChainConfig 1)))
      (world nat nat sample_state)
      [EvPreflight nat; EvOpenDb nat; EvReadHead nat;
       EvSentryConnect nat "127.0.0.1:9091"; EvSentrySetStatus nat;
       EvSentryHandShake nat]
      (StdException "handshake refused") 6%nat).
  { eapply (hand_shake_fails nat nat _ _ _ _ _ _ _ _ _ _ _
              (mkNodeSettings "127.0.0.1:9091" (Some (mkChainConfig 1))));
      [| reflexivity].
    repeat first [reflexivity | (intros s; reflexivity) | eexists]. }
  exact (proj1 (startup_steps_in_order nat nat (fun ns => succeed ns)
                  (fun _ => succeed tt) (succeed ([], 0, 0)) (fun _ => succeed tt)
                  (fun _ _ _ => succeed tt) (fail_with "handshake refused")
                  (fun _ => succeed tt) 1 3 11155111
                  (mkNodeSettings "127.0.0.1:9091" (Some (mkChainConfig 1)))
                  sample_state) _ _ _ Hfail).
Defined.

(** X10 on the sample world, with a database that cannot be opened. *)
Lemma startup_exception_is_handled_witness :
  main nat nat sample_forward sample_unwind_to sample_result_init sample_parse
    (fun ns => succeed ns) (fun _ => fail_with "cannot open chaindata")
    (succeed ([], 0, 0)) (fun _ => succeed tt) (fun _ _ _ => succeed tt)
    (succeed tt) (fun _ => succeed tt) (succeed tt) 0%nat 1%nat 1 3 11155111
    ["downloader"%string] 5 sample_state
  = (ExitCode 1,
     mkState nat nat 3%nat
       [EvParseCommandLine nat;
        EvLog nat "--max_blocks_per_req" 128;
        EvLog nat "--max_requests_per_peer" 4;
        EvLog nat "--request_deadline_s" 30;
        EvLog nat "--no_peer_delay_ms" 1000;
        EvPreflight nat; EvOpenDb nat;
        EvPrint nat "cannot open chaindata"]
       [] (mkTunables 128 4 30 1000)).
Proof.
  assert (Hj : joinable nat nat sample_state = []) by reflexivity.
  assert (Hparse : sample_parse ["downloader"%string]
                     (mkNodeSettings "127.0.0.1:9091" None)
                     (world nat nat sample_state)
                   = (inr (mkCommandLine None None None None,
                           mkNodeSettings "127.0.0.1:9091" (Some (mkChainConfig 1))),
                      1%nat))
    by (vm_compute; reflexivity).
  assert (Hfail :
    startup_failure nat nat (fun ns => succeed ns)
      (fun _ => fail_with "cannot open chaindata")
      (succeed ([], 0, 0)) (fun _ => succeed tt) (fun _ _ _ => succeed tt)
      (succeed tt) 1 3 11155111
      (mkNodeSettings "127.0.0.1:9091" (Some (mkChainConfig 1))) 1%nat
      [EvPreflight nat; EvOpenDb nat]
      (StdException "cannot open chaindata") 3%nat).
  { eapply (db_open_fails nat nat _ _ _ _ _ _ _ _ _ _ _
              (mkNodeSettings "127.0.0.1:9091" (Some (mkChainConfig 1))));
      [| reflexivity].
    repeat first [reflexivity | (intros s; reflexivity) | eexists]. }
  exact (startup_exception_is_handled nat nat sample_forward sample_unwind_to
           sample_result_init sample_parse
           (fun ns => succeed ns) (fun _ => fail_with "cannot open chaindata")
           (succeed ([], 0, 0)) (fun _ => succeed tt) (fun _ _ _ => succeed tt)
           (succeed tt) (fun _ => succeed tt) (succeed tt)
           0%nat 1%nat 1 3 11155111
           ["downloader"%string] 5%nat sample_state _ _ _ _ _ _ Hj Hparse Hfail).
Defined.

(** X11 with three contexts of wait mode 7. *)
Lemma constructor_adds_num_contexts_witness :
  0 <= 3 <= SIZE_MAX /\
  SentryImpl_context_pool Z nat (list nat) (fun _ => []) sample_add_context
    (mkSettings nat "127.0.0.1:9090" 3 7%nat 30303)
  = Finished [7; 7; 7]%nat.
Proof.
  assert (H3 : 0 <= 3 <= SIZE_MAX) by (unfold SIZE_MAX, size_modulus; simpl; lia).
  split; [exact H3 |].
  rewrite (constructor_adds_num_contexts Z nat (list nat) (fun _ => [])
             sample_add_context (mkSettings nat "127.0.0.1:9090" 3 7%nat 30303) H3).
  reflexivity.
Defined.

(** X12 with POSIX error numbers: 125 is [ECANCELED], 104 is [ECONNRESET]. *)
Lemma join_returns_after_cancelled_task_witness :
  SentryImpl_join Z
    (snd (SentryImpl_task_completed Z (Z.eqb 125) (Some (SystemError 125))
            (SentryImpl_stop (mkSentryImpl false false []))))
  = (Finished tt,
     mkSentryImpl true true
       [CallRpcShutdown; CallEmitCancellation; CallRpcJoin; CallPoolStop;
        CallPoolJoin]) /\
  SentryImpl_join Z
    (snd (SentryImpl_task_completed Z (Z.eqb 125) (Some (SystemError 104))
            (SentryImpl_stop (mkSentryImpl false false []))))
  = (Pending,
     mkSentryImpl false true [CallRpcShutdown; CallEmitCancellation; CallRpcJoin]).
Proof.
  split.
  - destruct (join_returns_after_cancelled_task Z (Z.eqb 125)
                (mkSentryImpl false false []) (SystemError 125) eq_refl eq_refl)
      as [Hc _].
    apply Hc. exists 125. split; reflexivity.
  - destruct (join_returns_after_cancelled_task Z (Z.eqb 125)
                (mkSentryImpl false false []) (SystemError 104) eq_refl eq_refl)
      as [_ Ho].
    apply Ho. intros code H. inversion H. reflexivity.
Defined.
